(** * fetch_ssq: the fetch / parse / normalise / merge pipeline

    A shallow embedding of [scripts/fetch_ssq.py].

    - Python [str] values are Rocq strings over code points below 256,
      compared code point by code point as Python compares them.
    - The regular expressions of the script are terms of a small pattern
      type, run by a backtracking matcher that tries the alternatives in
      the order of [re].
    - What the script takes from outside (the optional libraries, the
      network, the file system, [json.loads]) is a record [World]; what a
      run changes is a record [state], threaded through a state and
      exception monad.
    - [time.sleep] changes nothing that is modelled and is left out; JSON
      numbers are the integers; [main] starts from the namespace that
      [parse_args] returns. *)

From Stdlib Require Import String Ascii List ZArith Lia DecimalString.
From stdpp Require Import base option list strings sorting gmap fin_maps.

Local Open Scope string_scope.
Local Open Scope list_scope.
Local Open Scope nat_scope.

(** ** The record schema *)

(** [@dataclass class DrawRecord].  The script reads the fields of a record
    in two places: [issue] in the merger, and all of them through [to_row]
    into [csv.writer].  A field of the model holds the text [csv.writer]
    writes for the object the Python field holds; for a string that is the
    string. *)
Record DrawRecord := mkDrawRecord {
  issue : string;
  red1 : string;
  red2 : string;
  red3 : string;
  red4 : string;
  red5 : string;
  red6 : string;
  blue : string;
  date : string
}.

#[global] Instance DrawRecord_eq_dec : EqDecision DrawRecord.
Proof. solve_decision. Defined.

#[global] Instance DrawRecord_inhabited : Inhabited DrawRecord :=
  populate (mkDrawRecord "" "" "" "" "" "" "" "" "").

(** [DrawRecord.to_row]. *)
Definition to_row (r : DrawRecord) : list string :=
  [issue r; red1 r; red2 r; red3 r; red4 r; red5 r; red6 r; blue r; date r].

(** ** Python strings and the [re] patterns the script uses *)

Module Py.

(** [str.isspace] on one code point below 256. *)
Definition isspace (c : ascii) : bool :=
  let n := nat_of_ascii c in
  ((9 <=? n) && (n <=? 13)) || ((28 <=? n) && (n <=? 32))
  || (n =? 133) || (n =? 160).

(** [\d] on code points below 256: the ASCII digits. *)
Definition isdigit (c : ascii) : bool :=
  let n := nat_of_ascii c in (48 <=? n) && (n <=? 57).

Fixpoint lstrip (s : string) : string :=
  match s with
  | String c s' => if isspace c then lstrip s' else s
  | EmptyString => EmptyString
  end.

Fixpoint rstrip (s : string) : string :=
  match s with
  | String c s' =>
      match rstrip s' with
      | EmptyString => if isspace c then EmptyString else String c EmptyString
      | t => String c t
      end
  | EmptyString => EmptyString
  end.

(** [s.strip()]. *)
Definition strip (s : string) : string := rstrip (lstrip s).

(** ASCII case folding, as [re.IGNORECASE] compares the letters of the
    patterns below. *)
Definition lower (c : ascii) : ascii :=
  let n := nat_of_ascii c in
  if (65 <=? n) && (n <=? 90) then ascii_of_nat (n + 32) else c.

Definition char_eq (ignorecase : bool) (a b : ascii) : bool :=
  if ignorecase then Ascii.eqb (lower a) (lower b) else Ascii.eqb a b.

(** [Some rest] when [s] starts with the literal [lit]. *)
Fixpoint skip_literal (ignorecase : bool) (lit s : string) : option string :=
  match lit, s with
  | EmptyString, _ => Some s
  | String a lit', String b s' =>
      if char_eq ignorecase a b then skip_literal ignorecase lit' s' else None
  | String _ _, EmptyString => None
  end.

(** [s.replace(old, new)] for a non-empty [old], left to right. *)
Fixpoint replace_fuel (fuel : nat) (old new s : string) : string :=
  match fuel with
  | O => s
  | S fuel' =>
      match skip_literal false old s with
      | Some rest => new +:+ replace_fuel fuel' old new rest
      | None =>
          match s with
          | String c s' => String c (replace_fuel fuel' old new s')
          | EmptyString => EmptyString
          end
      end
  end.

Definition replace (old new s : string) : string :=
  replace_fuel (S (String.length s)) old new s.

(** The regular expressions of the script: literals, one bounded or
    unbounded repetition of a character class (greedy or lazy), groups and
    concatenation. *)
Inductive regex :=
| Lit (lit : string)
| Repeat (cls : ascii → bool) (lo : nat) (hi : option nat) (greedy : bool)
| Group (r : regex)
| Seq (r1 r2 : regex).

Definition may_take (hi : option nat) : bool :=
  match hi with Some O => false | _ => true end.

Definition taken (hi : option nat) : option nat :=
  match hi with Some n => Some (pred n) | None => None end.

(** Backtracking over one repetition: the greedy form tries one more
    character before the continuation, the lazy form the continuation
    first. *)
Fixpoint repeat_match {R} (cls : ascii → bool) (lo : nat) (hi : option nat)
    (greedy : bool) (s : string) (k : string → option R) : option R :=
  if greedy then
    match
      match s with
      | String c s' =>
          if cls c && may_take hi
          then repeat_match cls (pred lo) (taken hi) greedy s' k
          else None
      | EmptyString => None
      end
    with
    | Some r => Some r
    | None => match lo with O => k s | S _ => None end
    end
  else
    match match lo with O => k s | S _ => None end with
    | Some r => Some r
    | None =>
        match s with
        | String c s' =>
            if cls c && may_take hi
            then repeat_match cls (pred lo) (taken hi) greedy s' k
            else None
        | EmptyString => None
        end
    end.

(** The text a sub-pattern consumed: [s] up to where [rest] begins. *)
Definition consumed (s rest : string) : string :=
  substring 0 (String.length s - String.length rest) s.

(** Match [r] at the start of [s]; [k] receives the remaining input and the
    groups captured so far, and a [None] from [k] makes the matcher
    backtrack. *)
Fixpoint run {R} (ignorecase : bool) (r : regex) (s : string)
    (groups : list string) (k : string → list string → option R) : option R :=
  match r with
  | Lit lit =>
      match skip_literal ignorecase lit s with
      | Some s' => k s' groups
      | None => None
      end
  | Repeat cls lo hi greedy =>
      repeat_match cls lo hi greedy s (λ s', k s' groups)
  | Group r1 =>
      run ignorecase r1 s groups (λ s' gs, k s' (gs ++ [consumed s s']))
  | Seq r1 r2 =>
      run ignorecase r1 s groups (λ s' gs, run ignorecase r2 s' gs k)
  end.

(** A match object: the text before the match, the groups, and the input
    after the match. *)
Record match_obj := mkMatch {
  m_before : string;
  m_groups : list string;
  m_after : string
}.

(** [m.group(1)]. *)
Definition group1 (m : match_obj) : string := default "" (head (m_groups m)).

Definition match_at (ignorecase : bool) (r : regex) (s : string)
  : option (list string * string) :=
  run ignorecase r s [] (λ s' gs, Some (gs, s')).

(** [re.search]: the first start position, left to right, with a match. *)
Fixpoint search (ignorecase : bool) (r : regex) (s : string)
  : option match_obj :=
  match match_at ignorecase r s with
  | Some (gs, rest) => Some (mkMatch "" gs rest)
  | None =>
      match s with
      | String c s' =>
          match search ignorecase r s' with
          | Some m => Some (mkMatch (String c (m_before m)) (m_groups m) (m_after m))
          | None => None
          end
      | EmptyString => None
      end
  end.

(** [re.fullmatch(r, s)] as a truth value. *)
Definition fullmatch (ignorecase : bool) (r : regex) (s : string) : bool :=
  match run ignorecase r s []
          (λ s' _, if decide (s' = "") then Some tt else None) with
  | Some _ => true
  | None => false
  end.

(** [re.finditer]: successive non-overlapping matches.  Every pattern it is
    used with consumes at least one character, so the length of the input
    bounds the number of matches. *)
Fixpoint finditer_fuel (fuel : nat) (ignorecase : bool) (r : regex)
    (s : string) : list match_obj :=
  match fuel with
  | O => []
  | S fuel' =>
      match search ignorecase r s with
      | Some m => m :: finditer_fuel fuel' ignorecase r (m_after m)
      | None => []
      end
  end.

Definition finditer (ignorecase : bool) (r : regex) (s : string)
  : list match_obj :=
  finditer_fuel (String.length s) ignorecase r s.

(** [re.sub(r, repl, s)] for a pattern that consumes at least one
    character. *)
Definition sub (r : regex) (repl s : string) : string :=
  let ms := finditer false r s in
  foldr (λ m acc, m_before m +:+ repl +:+ acc)
        (default s (m_after <$> last ms)) ms.

(** [re.split(r, s)] for a pattern without groups that consumes at least
    one character. *)
Definition split (r : regex) (s : string) : list string :=
  let ms := finditer false r s in
  (m_before <$> ms) ++ [default s (m_after <$> last ms)].

(** Character classes. *)
Definition any_char : ascii → bool := λ _, true.
Definition not_char (c : ascii) : ascii → bool := λ x, negb (Ascii.eqb x c).
Definition one_of (cs : string) : ascii → bool :=
  λ x, existsb (Ascii.eqb x) (list_ascii_of_string cs).

Definition star (cls : ascii → bool) : regex := Repeat cls 0 None true.
Definition plus (cls : ascii → bool) : regex := Repeat cls 1 None true.
Definition lazy_star (cls : ascii → bool) : regex := Repeat cls 0 None false.
Definition class (cls : ascii → bool) : regex := Repeat cls 1 (Some 1) true.

(** [int(s)] on a string of ASCII digits. *)
Definition digit_value (c : ascii) : nat := nat_of_ascii c - 48.

Definition int_digits (s : string) : nat :=
  foldl (λ acc c, 10 * acc + digit_value c) 0 (list_ascii_of_string s).

(** [str(n)] for a natural number. *)
Definition str_nat (n : nat) : string :=
  DecimalString.NilZero.string_of_uint (Nat.to_uint n).

(** [f"{n:02d}"] for [n >= 0]. *)
Definition format_02d (n : nat) : string :=
  let d := str_nat n in
  if String.length d <? 2 then "0" +:+ d else d.

(** The least number of characters a match of [r] consumes. *)
Fixpoint min_len (r : regex) : nat :=
  match r with
  | Lit lit => String.length lit
  | Repeat _ lo _ _ => lo
  | Group r1 => min_len r1
  | Seq r1 r2 => min_len r1 + min_len r2
  end.

End Py.

(** ** BeautifulSoup trees

    [bs4] is a third-party library.  Its parse result is modelled as the
    tree of tags and strings it builds, with the three operations the script
    calls on it: [find], [find_all] and [get_text(strip=True)]. *)

Module Soup.

#[local] Set Warnings "-register-all".

Inductive node :=
| NavigableString (text : string)
| Tag (name : string) (attrs : list (string * string)) (contents : list node).

(** [tag.descendants]: every node below [n], in document order. *)
Fixpoint descendants (n : node) : list node :=
  match n with
  | NavigableString _ => []
  | Tag _ _ contents =>
      (fix below (l : list node) : list node :=
         match l with
         | [] => []
         | c :: l' => c :: descendants c ++ below l'
         end) contents
  end.

(** [attrs.get(key)]. *)
Fixpoint attr_get (key : string) (attrs : list (string * string))
  : option string :=
  match attrs with
  | [] => None
  | (k, v) :: attrs' => if decide (k = key) then Some v else attr_get key attrs'
  end.

(** Does [n] match [name] and every attribute filter of [want]? *)
Definition matches (name : string) (want : list (string * string))
    (n : node) : bool :=
  match n with
  | NavigableString _ => false
  | Tag nm attrs _ =>
      bool_decide (nm = name)
      && forallb (λ kv, bool_decide (attr_get kv.1 attrs = Some kv.2)) want
  end.

(** [n.find_all(name)]. *)
Definition find_all (name : string) (n : node) : list node :=
  List.filter (matches name []) (descendants n).

(** [n.find(name, attrs)]: the first match, or [None]. *)
Definition find (name : string) (want : list (string * string)) (n : node)
  : option node :=
  head (List.filter (matches name want) (descendants n)).

(** The strings below [n], each stripped, the empty ones dropped. *)
Definition stripped_strings (n : node) : list string :=
  omap (λ d, match d with
             | NavigableString t =>
                 let t' := Py.strip t in
                 if decide (t' = "") then None else Some t'
             | Tag _ _ _ => None
             end) (descendants n).

(** [n.get_text(strip=True)]. *)
Definition get_text_strip (n : node) : string :=
  foldr String.append "" (stripped_strings n).

End Soup.

(** ** JSON values and the Python operations applied to them *)

Module Json.

#[local] Set Warnings "-register-all".

(** What [json.loads] returns.  Numbers are the integers; a dict is the list
    of its items, keys pairwise distinct. *)
Inductive json :=
| JNull
| JBool (b : bool)
| JInt (n : Z)
| JStr (s : string)
| JList (elems : list json)
| JDict (items : list (string * json)).

(** Python exceptions.  Every one of them derives from [Exception]. *)
Inductive exn :=
| AttributeError
| TypeError
| KeyError
| IndexError
| NameError
| RuntimeError
| FileNotFoundError
| UnicodeEncodeError
| OSError (what : string)
| URLError (what : string).

Inductive outcome (A : Type) :=
| Ok (a : A)
| Raise (e : exn).
Arguments Ok {A} a.
Arguments Raise {A} e.

#[global] Instance outcome_ret : MRet outcome := @Ok.
#[global] Instance outcome_bind : MBind outcome := λ A B k o,
  match o with
  | Ok a => k a
  | Raise e => Raise e
  end.

(** Truth value of a JSON value. *)
Definition truthy (v : json) : bool :=
  match v with
  | JNull => false
  | JBool b => b
  | JInt n => negb (n =? 0)%Z
  | JStr s => negb (bool_decide (s = ""))
  | JList l => negb (bool_decide (l = []))
  | JDict d => negb (bool_decide (d = []))
  end.

(** [a or b]. *)
Definition por (a b : json) : json := if truthy a then a else b.

Fixpoint assoc (key : string) (items : list (string * json)) : option json :=
  match items with
  | [] => None
  | (k, v) :: items' => if decide (k = key) then Some v else assoc key items'
  end.

(** [v.get(key, dflt)]: only a dict has [get]. *)
Definition get_default (v : json) (key : string) (dflt : json) : outcome json :=
  match v with
  | JDict items => Ok (default dflt (assoc key items))
  | _ => Raise AttributeError
  end.

(** [v.get(key)]. *)
Definition get (v : json) (key : string) : outcome json :=
  get_default v key JNull.

(** [for it in v]: a list yields its elements, a dict its keys, a string
    its characters; nothing else is iterable. *)
Definition iter (v : json) : outcome (list json) :=
  match v with
  | JList l => Ok l
  | JDict d => Ok ((λ kv, JStr kv.1) <$> d)
  | JStr s => Ok ((λ c, JStr (String c EmptyString)) <$> list_ascii_of_string s)
  | _ => Raise TypeError
  end.

(** [str(n)] for an integer. *)
Definition str_int (n : Z) : string :=
  DecimalString.NilZero.string_of_int (Z.to_int n).

(** [str(v)]; [repr] gives the text of a list or of a dict. *)
Definition str (repr : json → string) (v : json) : string :=
  match v with
  | JNull => "None"
  | JBool true => "True"
  | JBool false => "False"
  | JInt n => str_int n
  | JStr s => s
  | JList _ | JDict _ => repr v
  end.

(** The text [csv.writer] writes for a field that holds [v]: nothing for
    [None], a string as it is, [str(v)] for another value. *)
Definition csv_field (repr : json → string) (v : json) : string :=
  match v with
  | JNull => ""
  | _ => str repr v
  end.

(** [v.strip()]: only a string has [strip]. *)
Definition strip (v : json) : outcome string :=
  match v with
  | JStr s => Ok (Py.strip s)
  | _ => Raise AttributeError
  end.

End Json.

(** ** The world the script runs in *)

Module Sys.
Export Json.

(** One HTTP GET: through [requests] or through [urllib], with its query
    parameters. *)
Record request := mkRequest {
  via_requests : bool;
  url : string;
  params : list (string * string)
}.

(** What the script does not decide: which optional libraries are
    installed, library functions taken as given, the network and the file
    system.  [http_get log rq] is the decoded body of the response to [rq]
    after the requests of [log], or the exception of the transport;
    [makedirs] and [open_w] tell whether a directory can be created and a
    file opened for writing, [csv_writerow path row] whether the row can be
    encoded and written to the file at [path] (a [UnicodeEncodeError] or an
    [OSError] otherwise). *)
Record World := mkWorld {
  requests : bool;
  BeautifulSoup : option (string → Soup.node);
  json_loads : string → option json;
  repr : json → string;
  http_get : list request → request → outcome string;
  makedirs : string → outcome unit;
  open_w : string → outcome unit;
  csv_writerow : string → list string → outcome unit
}.

(** What a run changes: the requests sent, the two output streams, the
    files written (as rows of fields, the file opened last first), and the
    list [records] of the fetch function that is running. *)
Record state := mkState {
  net_log : list request;
  stdout : list string;
  stderr : list string;
  files : list (string * list (list string));
  records : list DrawRecord
}.

Definition initial : state := mkState [] [] [] [] [].

(** Computations that read and change the state and may raise. *)
Definition M (A : Type) : Type := state → outcome A * state.

Definition ret {A} (a : A) : M A := λ σ, (Ok a, σ).

Definition bind {A B} (m : M A) (k : A → M B) : M B :=
  λ σ, match m σ with
       | (Ok a, σ') => k a σ'
       | (Raise e, σ') => (Raise e, σ')
       end.

Definition raise {A} (e : exn) : M A := λ σ, (Raise e, σ).

(** [try: m  except Exception: handler]. *)
Definition try_except {A} (m : M A) (handler : exn → M A) : M A :=
  λ σ, match m σ with
       | (Ok a, σ') => (Ok a, σ')
       | (Raise e, σ') => handler e σ'
       end.

Definition lift {A} (o : outcome A) : M A := λ σ, (o, σ).

#[global] Instance M_ret : MRet M := @ret.
#[global] Instance M_bind : MBind M := λ A B k m, bind m k.

(** Send [rq] and log it. *)
Definition send (w : World) (rq : request) : M string :=
  λ σ, (http_get w (net_log σ) rq,
        mkState (net_log σ ++ [rq]) (stdout σ) (stderr σ) (files σ) (records σ)).

(** [records = []], [records.append(r)], and reading [records]. *)
Definition set_records (l : list DrawRecord) : M unit :=
  λ σ, (Ok tt, mkState (net_log σ) (stdout σ) (stderr σ) (files σ) l).

Definition append_record (r : DrawRecord) : M unit :=
  λ σ, (Ok tt, mkState (net_log σ) (stdout σ) (stderr σ) (files σ)
                       (records σ ++ [r])).

Definition get_records : M (list DrawRecord) := λ σ, (Ok (records σ), σ).

(** [print(line)] and [print(line, file=sys.stderr)]. *)
Definition print (line : string) : M unit :=
  λ σ, (Ok tt, mkState (net_log σ) (stdout σ ++ [line]) (stderr σ) (files σ)
                       (records σ)).

Definition eprint (line : string) : M unit :=
  λ σ, (Ok tt, mkState (net_log σ) (stdout σ) (stderr σ ++ [line]) (files σ)
                       (records σ)).

(** [open(path, "w", ...)]: the file is created, or emptied. *)
Definition open_file (w : World) (path : string) : M unit :=
  λ σ, match open_w w path with
       | Ok _ => (Ok tt, mkState (net_log σ) (stdout σ) (stderr σ)
                                 ((path, []) :: files σ) (records σ))
       | Raise e => (Raise e, σ)
       end.

Definition add_row (row : list string)
    (fs : list (string * list (list string)))
  : list (string * list (list string)) :=
  match fs with
  | (path, rows) :: fs' => (path, rows ++ [row]) :: fs'
  | [] => []
  end.

(** [writer.writerow(row)] on the file opened last: the row is added, or
    the write raises and the rows written before stay. *)
Definition writerow (w : World) (path : string) (row : list string) : M unit :=
  λ σ, match csv_writerow w path row with
       | Ok _ => (Ok tt, mkState (net_log σ) (stdout σ) (stderr σ)
                                 (add_row row (files σ)) (records σ))
       | Raise e => (Raise e, σ)
       end.

(** [_urllib_get(url, params, ...)]: one GET through [urllib]; reading,
    decompressing and decoding the body are the transport's. *)
Definition _urllib_get (w : World) (url : string)
    (params : list (string * string)) : M string :=
  send w (mkRequest false url params).

(** [HttpClient.max_retries], as [HttpClient()] sets it. *)
Definition max_retries : nat := 3.

(** [HttpClient.get_text]: the request is tried [max_retries] times, and the
    exception of the last attempt is raised. *)
Fixpoint get_text_attempts (w : World) (retries_left : nat) (rq : request)
  : M string :=
  try_except (send w rq)
    (λ exc, match retries_left with
            | O => raise exc
            | S n => get_text_attempts w n rq
            end).

Definition get_text (w : World) (url : string)
    (params : list (string * string)) : M string :=
  get_text_attempts w (max_retries - 1) (mkRequest true url params).

(** [HttpClient.get_json]. *)
Definition get_json (w : World) (url : string)
    (params : list (string * string)) : M json :=
  text ← get_text w url params;
  match json_loads w text with
  | Some data => ret data
  | None => raise RuntimeError
  end.

(** [HttpClient()]: refuses to be built without [requests]. *)
Definition HttpClient (w : World) : M unit :=
  if requests w then ret tt else raise RuntimeError.

(** [for x in l: body(x)]. *)
Fixpoint for_each {A} (l : list A) (body : A → M unit) : M unit :=
  match l with
  | [] => ret tt
  | x :: l' => body x;; for_each l' body
  end.

End Sys.

(** ** The encoding declared by a page

    [_urllib_get] decodes a body with the encoding found here when its
    caller forces none; the request and the body are part of [World]. *)

Module Transport.
Import Py.

(** [data.decode("ascii", errors="ignore")]: the bytes below 128, as
    text. *)
Definition decode_ascii_ignore (data : list Byte.byte) : string :=
  string_of_list_ascii
    (ascii_of_byte <$> List.filter (λ b, Byte.to_nat b <? 128) data).

Definition isalpha (c : ascii) : bool :=
  let n := nat_of_ascii c in
  ((65 <=? n) && (n <=? 90)) || ((97 <=? n) && (n <=? 122)).

(** [[\w-]] on ASCII text. *)
Definition word_or_dash (c : ascii) : bool :=
  isalpha c || isdigit c || Ascii.eqb c "_" || Ascii.eqb c "-".

(** [charset=([\w-]+)] *)
Definition charset_re : regex :=
  Seq (Lit "charset=") (Group (plus word_or_dash)).

(** [s.lower()] on ASCII text. *)
Fixpoint lower_str (s : string) : string :=
  match s with
  | String c s' => String (lower c) (lower_str s')
  | EmptyString => EmptyString
  end.

(** [_detect_encoding_from_meta]: nothing in the body of its [try] raises
    on a [bytes] argument, so the handler is never entered. *)
Definition _detect_encoding_from_meta (html_bytes : list Byte.byte)
    (default : string) : string :=
  let head := decode_ascii_ignore (take 4096 html_bytes) in
  match search true charset_re head with
  | Some m => lower_str (group1 m)
  | None => default
  end.

End Transport.

(** ** Source A: the HTML history table *)

Module TableSource.
Import Py.

Declare Scope regex_scope.
Delimit Scope regex_scope with re.
Notation "r1 ⋅ r2" := (Seq r1 r2) (at level 41, right associativity)
  : regex_scope.

Definition dquote : string := String (ascii_of_nat 34) EmptyString.
Definition not_gt : ascii → bool := not_char ">".

(** [<[^>]+>] *)
Definition tag_re : regex := (Lit "<" ⋅ plus not_gt ⋅ Lit ">")%re.

(** [<table[^>]*id="tdata"[^>]*>([\s\S]*?)</table>] *)
Definition table_re : regex :=
  (Lit "<table" ⋅ star not_gt ⋅ Lit ("id=" +:+ dquote +:+ "tdata" +:+ dquote)
   ⋅ star not_gt ⋅ Lit ">" ⋅ Group (lazy_star any_char) ⋅ Lit "</table>")%re.

(** [<tr[^>]*>([\s\S]*?)</tr>] *)
Definition tr_re : regex :=
  (Lit "<tr" ⋅ star not_gt ⋅ Lit ">" ⋅ Group (lazy_star any_char)
   ⋅ Lit "</tr>")%re.

(** [<td[^>]*>([\s\S]*?)</td>] *)
Definition td_re : regex :=
  (Lit "<td" ⋅ star not_gt ⋅ Lit ">" ⋅ Group (lazy_star any_char)
   ⋅ Lit "</td>")%re.

(** [\d+] and [\d{1,2}] *)
Definition digits_re : regex := plus isdigit.
Definition digits_1_2_re : regex := Repeat isdigit 1 (Some 2) true.

Definition _strip_tags (html_snippet : string) : string :=
  let text := sub tag_re "" html_snippet in
  let text := replace "&nbsp;" " " text in
  strip text.

(** The body of the row loop of [parse_500_history_html_regex], from the
    cell texts on: [None] stands for [continue].  The subscripts are within
    range once the length test has passed. *)
Definition regex_row_record (td_values : list string) : option DrawRecord :=
  if length td_values <? 16 then None else
  let issue := td_values !!! 0 in
  let red_nums := take 6 (drop 1 td_values) in
  let blue := if 7 <? length td_values then td_values !!! 7 else "" in
  let date_text := if 15 <? length td_values then td_values !!! 15 else "" in
  if negb (fullmatch false digits_re issue
           && (length red_nums =? 6)
           && forallb (fullmatch false digits_1_2_re) red_nums
           && fullmatch false digits_1_2_re blue)
  then None
  else Some {|
    issue := issue;
    red1 := format_02d (int_digits (red_nums !!! 0));
    red2 := format_02d (int_digits (red_nums !!! 1));
    red3 := format_02d (int_digits (red_nums !!! 2));
    red4 := format_02d (int_digits (red_nums !!! 3));
    red5 := format_02d (int_digits (red_nums !!! 4));
    red6 := format_02d (int_digits (red_nums !!! 5));
    blue := format_02d (int_digits blue);
    date := date_text
  |}.

(** The cell texts of one [<tr>]: [_strip_tags] of every [<td>] body. *)
Definition td_values_of (tr_html : string) : list string :=
  (λ m, _strip_tags (group1 m)) <$> finditer true td_re tr_html.

Definition parse_500_history_html_regex (html_text : string)
  : list DrawRecord :=
  match search true table_re html_text with
  | None => []
  | Some table_match =>
      let table_html := group1 table_match in
      omap (λ tr_match, regex_row_record (td_values_of (group1 tr_match)))
           (finditer true tr_re table_html)
  end.

(** The body of the row loop of the structural parse, from the [<td>] cells
    of the row on. *)
Definition soup_row_record (cells : list Soup.node) : option DrawRecord :=
  if bool_decide (cells = []) || (length cells <? 16) then None else
  let text i := from_option Soup.get_text_strip "" (cells !! i) in
  let issue := text 0 in
  let red_nums := text <$> seq 1 6 in
  let blue := text 7 in
  let date_text := text 15 in
  if bool_decide (issue = "") || bool_decide (blue = "")
     || negb (forallb (λ x, negb (bool_decide (x = ""))) red_nums)
  then None
  else Some {|
    issue := issue;
    red1 := red_nums !!! 0;
    red2 := red_nums !!! 1;
    red3 := red_nums !!! 2;
    red4 := red_nums !!! 3;
    red5 := red_nums !!! 4;
    red6 := red_nums !!! 5;
    blue := blue;
    date := date_text
  |}.

(** [parse_500_history_html], given the module-level name [BeautifulSoup]:
    [None] when [bs4] is not installed, else the parser
    [BeautifulSoup(html_text, "html.parser")]. *)
Definition parse_500_history_html
    (BeautifulSoup : option (string → Soup.node)) (html_text : string)
  : list DrawRecord :=
  match BeautifulSoup with
  | None => parse_500_history_html_regex html_text
  | Some parser =>
      let soup := parser html_text in
      match Soup.find "table" [("id", "tdata")] soup with
      | None => []
      | Some table =>
          omap (λ row, soup_row_record (Soup.find_all "td" row))
               (Soup.find_all "tr" table)
      end
  end.

(** The markup of a tree: what an HTML serialiser writes for it.  It names
    the text inputs of the two parses in the statements below. *)
Fixpoint markup (n : Soup.node) : string :=
  match n with
  | Soup.NavigableString t => t
  | Soup.Tag name attrs contents =>
      "<" +:+ name
      +:+ foldr (λ kv acc, " " +:+ kv.1 +:+ "=" +:+ dquote +:+ kv.2 +:+ dquote
                           +:+ acc) "" attrs
      +:+ ">"
      +:+ (fix all (l : list Soup.node) : string :=
             match l with
             | [] => ""
             | c :: l' => markup c +:+ all l'
             end) contents
      +:+ "</" +:+ name +:+ ">"
  end.

End TableSource.

(** ** Source B: the paged JSON API *)

Module PagedJson.
Import Sys.

(** [[ ,;+]] *)
Definition delim_re : Py.regex := Py.class (Py.one_of " ,;+").

(** [[n for n in re.split(r"[ ,;+]", code) if n]]. *)
Definition tokens (code : string) : list string :=
  filter (λ n, n ≠ "") (Py.split delim_re code).

(** The body of the item loop: [Ok None] stands for an item that appends
    nothing, [Raise] for an exception of the body. *)
Definition item_record (repr : json → string) (it : json)
  : outcome (option DrawRecord) :=
  num ← get it "lotteryDrawNum";
  alt ← get it "issue";
  let issue := str repr (por (por num alt) (JStr "")) in
  res ← get it "lotteryDrawResult";
  code ← strip (por res (JStr ""));
  time ← get it "lotteryDrawTime";
  day ← get it "date";
  let open_time := str repr (por (por time day) (JStr "")) in
  if bool_decide (issue = "") || bool_decide (code = "") then Ok None else
  let nums := tokens code in
  if 7 <=? length nums then
    let red := take 6 nums in
    let blue := nums !!! 6 in
    Ok (Some {|
      issue := issue;
      red1 := red !!! 0;
      red2 := red !!! 1;
      red3 := red !!! 2;
      red4 := red !!! 3;
      red5 := red !!! 4;
      red6 := red !!! 5;
      blue := blue;
      date := open_time
    |})
  else Ok None.

(** [for it in items: ...], appending to [records]. *)
Definition append_items (w : World) (items : json) : M unit :=
  its ← lift (iter items);
  for_each its (λ it,
    r ← lift (item_record (repr w) it);
    match r with
    | Some rec => append_record rec
    | None => ret tt
    end).

Definition base_url : string :=
  "https://webapi.sporttery.cn/gateway/lottery/getHistoryPageListV1.qry".

Definition page_params (page_no : nat) : list (string * string) :=
  [("gameNo", "85"); ("provinceId", "0"); ("pageSize", "50");
   ("isVerify", "1"); ("pageNo", Py.str_nat page_no)].

(** The page loop of [fetch_from_sporttery_with_urllib], from page
    [page_no] on, for [pages_left] more pages.  The request stands before
    the [try]; the [try] holds [json.loads] alone.  The pause between two
    pages changes nothing that is modelled. *)
Fixpoint page_loop (w : World) (pages_left page_no : nat) : M unit :=
  match pages_left with
  | O => ret tt
  | S n =>
      text ← _urllib_get w base_url (page_params page_no);
      match json_loads w text with
      | None => ret tt
      | Some data =>
          value ← lift (get data "value");
          list ← lift (get (por value (JDict [])) "list");
          let items := por list (JList []) in
          if negb (truthy items) then ret tt else
          append_items w items;;
          page_loop w n (S page_no)
      end
  end.

Definition fetch_from_sporttery_with_urllib (w : World) (max_pages : Z)
  : M (list DrawRecord) :=
  set_records [];;
  page_loop w (Z.to_nat max_pages) 1;;
  get_records.

End PagedJson.

(** ** Source C: the flexible JSON notice *)

Module FlexJson.
Import Sys.

(** [[ ,;|+]] *)
Definition delim_re : Py.regex := Py.class (Py.one_of " ,;|+").

(** The body of the item loop.  An element of a JSON list of reds is
    stored as it is, whatever its type; the model keeps the text
    [csv.writer] writes for it ([csv_field]). *)
Definition item_record (repr : json → string) (it : json)
  : outcome (option DrawRecord) :=
  code ← get it "code";
  iss ← get it "issue";
  num ← get it "lotteryDrawNum";
  let issue := str repr (por (por (por code iss) num) (JStr "")) in
  reds1 ← get it "reds";
  reds2 ← get it "red";
  let reds := por (por reds1 reds2) (JStr "") in
  blue1 ← get it "blue";
  blue2 ← get it "blueBall";
  let blue := por (por blue1 blue2) (JStr "") in
  day ← get it "date";
  time ← get it "lotteryDrawTime";
  let open_time := por (por day time) (JStr "") in
  red_list ←
    match reds with
    | JStr s => Ok (JStr <$> filter (λ n, n ≠ "") (Py.split delim_re s))
    | _ => if truthy reds then iter reds else Ok []
    end;
  if negb (negb (bool_decide (issue = "")) && truthy blue
           && (6 <=? length red_list))
  then Ok None
  else
    let red i := csv_field repr (default JNull (red_list !! i)) in
    Ok (Some {|
      issue := issue;
      red1 := red 0;
      red2 := red 1;
      red3 := red 2;
      red4 := red 3;
      red5 := red 4;
      red6 := red 5;
      blue := str repr blue;
      date := str repr open_time
    |}).

(** From the decoded response to the end of the item loop. *)
Definition append_results (w : World) (data : json) : M unit :=
  r1 ← lift (get data "result");
  r2 ← lift (get data "list");
  r3 ← lift (get data "value");
  let result_list := por (por (por r1 r2) r3) (JList []) in
  let result_list :=
    match result_list with
    | JDict items => default result_list (assoc "list" items)
    | _ => result_list
    end in
  its ← lift (iter result_list);
  for_each its (λ it,
    r ← lift (item_record (repr w) it);
    match r with
    | Some rec => append_record rec
    | None => ret tt
    end).

Definition url : string :=
  "https://www.cwl.gov.cn/cwl_admin/kjxx/findDrawNotice".

Definition fetch_from_cwl_with_urllib (w : World) (issue_count : Z)
  : M (list DrawRecord) :=
  text ← _urllib_get w url [("name", "ssq"); ("issueCount", str_int issue_count)];
  match json_loads w text with
  | None => ret []
  | Some data =>
      set_records [];;
      append_results w data;;
      get_records
  end.

End FlexJson.

(** ** The [requests] path over both JSON endpoints *)

Module RequestsPath.
Import Sys.

Definition candidate_urls : list (string * list (string * string)) :=
  [(PagedJson.base_url,
    [("gameNo", "85"); ("provinceId", "0"); ("pageSize", "50");
     ("isVerify", "1"); ("pageNo", "1")]);
   (FlexJson.url, [("name", "ssq"); ("issueCount", "100")])].

(** [params[key] = value] on a dict given by its items. *)
Fixpoint dict_set (key value : string) (params : list (string * string))
  : list (string * string) :=
  match params with
  | [] => [(key, value)]
  | (k, v) :: params' =>
      if decide (k = key) then (k, value) :: params'
      else (k, v) :: dict_set key value params'
  end.

(** [key in params]. *)
Definition has_key (key : string) (params : list (string * string)) : bool :=
  bool_decide (key ∈ params.*1).

(** The page loop of the paged candidate. *)
Fixpoint page_loop (w : World) (base_url : string)
    (base_params : list (string * string)) (pages_left page_no : nat)
  : M unit :=
  match pages_left with
  | O => ret tt
  | S n =>
      let params := dict_set "pageNo" (Py.str_nat page_no) base_params in
      data ← get_json w base_url params;
      value ← lift (get_default data "value" (JDict []));
      items ← lift (get_default value "list" (JList []));
      if negb (truthy items) then ret tt else
      PagedJson.append_items w items;;
      page_loop w base_url base_params n (S page_no)
  end.

(** [try_fetch_from_cwl]: each candidate runs inside its own [try]; what
    it appended to [records] before an exception stays there.  The
    [continue] that follows the item loop stands inside the page loop, so a
    paged candidate whose page loop has ended goes on into the block under
    [# Non-paged], with its own address and parameters. *)
Definition try_fetch_from_cwl (w : World) (max_pages : Z)
  : M (list DrawRecord) :=
  set_records [];;
  for_each candidate_urls (λ c,
    try_except
      ((if has_key "pageNo" c.2
        then page_loop w c.1 c.2 (Z.to_nat max_pages) 1
        else ret tt);;
       data ← get_json w c.1 c.2;
       FlexJson.append_results w data)
      (λ _, ret tt));;
  get_records.

End RequestsPath.

(** ** Source A over the network *)

Module TableFetch.
Import Sys.

Definition url : string :=
  "https://datachart.500.com/ssq/history/newinc/history.php".

Definition fetch_from_500_with_requests (w : World)
    (start_issue end_issue : string) : M (list DrawRecord) :=
  text ← get_text w url [("start", start_issue); ("end", end_issue)];
  ret (TableSource.parse_500_history_html (BeautifulSoup w) text).

Definition fetch_from_500_with_urllib (w : World)
    (start_issue end_issue : string) : M (list DrawRecord) :=
  text ← _urllib_get w url [("start", start_issue); ("end", end_issue)];
  ret (TableSource.parse_500_history_html (BeautifulSoup w) text).

End TableFetch.

(** ** The merger *)

Module Merger.

(** The loop of [dedupe_and_sort]: [by_issue[r.issue] = r] for every record
    whose issue is truthy (non-empty), in input order. *)
Definition by_issue_step (by_issue : gmap string DrawRecord) (r : DrawRecord)
  : gmap string DrawRecord :=
  if decide (issue r = "") then by_issue else <[issue r := r]> by_issue.

Definition build_by_issue (records : list DrawRecord) : gmap string DrawRecord :=
  foldl by_issue_step ∅ records.

(** [sorted(by_issue.keys())]: the keys of a dict are pairwise distinct, and
    [sorted] orders them by [<=] on [str]. *)
Definition sorted_keys (by_issue : gmap string DrawRecord) : list string :=
  merge_sort String.le (map_to_list by_issue).*1.

(** [[by_issue[k] for k in sorted(by_issue.keys())]].  The subscript cannot
    raise [KeyError]: see [sorted_keys_present]. *)
Definition dedupe_and_sort (records : list DrawRecord) : list DrawRecord :=
  let by_issue := build_by_issue records in
  (λ k, by_issue !!! k) <$> sorted_keys by_issue.

(** The record that occurs last in [records] among those with issue [k]. *)
Definition last_with_issue (k : string) (records : list DrawRecord)
  : option DrawRecord :=
  last (filter (λ r, issue r = k) records).

End Merger.

(** ** The sink *)

Module Sink.
Import Sys.

Definition is_slash (c : ascii) : bool := Ascii.eqb c "/".

Fixpoint drop_while {A} (f : A → bool) (l : list A) : list A :=
  match l with
  | x :: l' => if f x then drop_while f l' else l
  | [] => []
  end.

(** [os.path.dirname] of [posixpath]: the path up to its last slash, the
    trailing slashes of that head removed unless it holds nothing else. *)
Definition dirname (p : string) : string :=
  let head_rev := drop_while (λ c, negb (is_slash c))
                             (rev (list_ascii_of_string p)) in
  if negb (bool_decide (head_rev = [])) && negb (forallb is_slash head_rev)
  then string_of_list_ascii (rev (drop_while is_slash head_rev))
  else string_of_list_ascii (rev head_rev).

(** [os.makedirs(d, exist_ok=True)]: the empty path names no directory and
    is refused with [FileNotFoundError]; otherwise the file system
    decides. *)
Definition os_makedirs (w : World) (d : string) : M unit :=
  if bool_decide (d = "") then raise FileNotFoundError else lift (makedirs w d).

Definition header : list string :=
  ["issue"; "red1"; "red2"; "red3"; "red4"; "red5"; "red6"; "blue"; "date"].

(** [save_to_csv]: the rows are written one by one; a row that cannot be
    written raises out of [save_to_csv] and leaves the file with the rows
    before it. *)
Definition save_to_csv (w : World) (records : list DrawRecord)
    (output_path : string) : M unit :=
  os_makedirs w (dirname output_path);;
  open_file w output_path;;
  writerow w output_path header;;
  for_each records (λ rec, writerow w output_path (to_row rec)).

(** The output file can be written: its directory part is not empty, the
    directory can be created, the file opened and every row written. *)
Definition writable (w : World) (output_path : string) : Prop :=
  dirname output_path ≠ ""
  ∧ makedirs w (dirname output_path) = Ok tt
  ∧ open_w w output_path = Ok tt
  ∧ ∀ row, csv_writerow w output_path row = Ok tt.

End Sink.

(** ** The orchestrator *)

Module Orchestrator.
Import Sys.

Inductive source_choice := SourceAll | SourceSporttery | Source500 | SourceCwl.

#[global] Instance source_choice_eq_dec : EqDecision source_choice.
Proof. solve_decision. Defined.

(** The namespace that [build_arg_parser().parse_args()] returns. *)
Record args := mkArgs {
  output : string;
  source : source_choice;
  start_issue : string;
  end_issue : string;
  max_pages : Z;
  issue_count : Z;
  selftest : bool
}.

Definition sample_sporttery_json : json :=
  JDict [("value", JDict [("list", JList [
    JDict [("lotteryDrawNum", JStr "2023001");
           ("lotteryDrawResult", JStr "01 02 03 04 05 06+07");
           ("lotteryDrawTime", JStr "2023-01-03")]])])].

Definition sample_500_html : string :=
  "<table id=" +:+ TableSource.dquote +:+ "tdata" +:+ TableSource.dquote
  +:+ "><tr>"
  +:+ "<td>2023002</td>"
  +:+ "<td>08</td><td>09</td><td>10</td><td>11</td><td>12</td><td>13</td>"
  +:+ "<td>16</td>"
  +:+ "<td></td><td></td><td></td><td></td><td></td><td></td><td></td>"
  +:+ "<td>2023-01-05</td>"
  +:+ "</tr></table>".

(** One turn of the item loop of [run_selftest]: no test guards the
    subscripts. *)
Definition selftest_item (repr : json → string) (it : json)
  : outcome DrawRecord :=
  num ← get it "lotteryDrawNum";
  let issue := str repr (por num (JStr "")) in
  res ← get it "lotteryDrawResult";
  code ← strip (por res (JStr ""));
  time ← get it "lotteryDrawTime";
  let open_time := str repr (por time (JStr "")) in
  let nums := PagedJson.tokens code in
  let red := take 6 nums in
  match nums !! 6 with
  | None => Raise IndexError
  | Some blue =>
      if length red <? 6 then Raise IndexError else
      Ok {|
        issue := issue;
        red1 := red !!! 0;
        red2 := red !!! 1;
        red3 := red !!! 2;
        red4 := red !!! 3;
        red5 := red !!! 4;
        red6 := red !!! 5;
        blue := blue;
        date := open_time
      |}
  end.

(** The item loop of [run_selftest] and the [append] that stands after it:
    the record is built from the variables the last turn left. *)
Definition selftest_sample_records (repr : json → string)
  : outcome (list DrawRecord) :=
  value ← get sample_sporttery_json "value";
  list ← get (por value (JDict [])) "list";
  its ← iter (por list (JList []));
  recs ← mapM (selftest_item repr) its;
  match last recs with
  | Some r => Ok [r]
  | None => Raise NameError
  end.

Definition run_selftest (w : World) (output_path : string) : M Z :=
  sample ← lift (selftest_sample_records (repr w));
  let records :=
    sample ++ TableSource.parse_500_history_html (BeautifulSoup w)
                                                 sample_500_html in
  let final_records := Merger.dedupe_and_sort records in
  Sink.save_to_csv w final_records output_path;;
  print ("Selftest saved " +:+ Py.str_nat (length final_records)
         +:+ " records to " +:+ output_path);;
  ret 0%Z.

(** [try: all_records.extend(fetch)  except Exception: pass]. *)
Definition extend_from (all_records : list DrawRecord)
    (fetch : M (list DrawRecord)) : M (list DrawRecord) :=
  try_except (recs ← fetch; ret (all_records ++ recs)) (λ _, ret all_records).

Definition no_records_message : string :=
  "No records fetched. Please check network or source endpoints.".

(** The three source branches of [main]: the records gathered over the
    selected sources. *)
Definition collect (w : World) (a : args) : M (list DrawRecord) :=
  let all_records := [] in
  all_records ←
    (if bool_decide (source a = SourceAll ∨ source a = SourceSporttery) then
       if requests w then
         extend_from all_records
           (HttpClient w;; RequestsPath.try_fetch_from_cwl w (max_pages a))
       else
         extend_from all_records
           (PagedJson.fetch_from_sporttery_with_urllib w (max_pages a))
     else ret all_records);
  all_records ←
    (if bool_decide (source a = SourceAll ∨ source a = Source500) then
       extend_from all_records
         (if requests w then
            HttpClient w;;
            TableFetch.fetch_from_500_with_requests w (start_issue a)
                                                    (end_issue a)
          else
            TableFetch.fetch_from_500_with_urllib w (start_issue a)
                                                  (end_issue a))
     else ret all_records);
  if bool_decide (source a = SourceAll ∨ source a = SourceCwl)
     && negb (requests w)
  then extend_from all_records
         (FlexJson.fetch_from_cwl_with_urllib w (issue_count a))
  else ret all_records.

Definition main (w : World) (a : args) : M Z :=
  if selftest a then run_selftest w (output a) else
  all_records ← collect w a;
  let final_records := Merger.dedupe_and_sort all_records in
  if bool_decide (final_records = []) then
    eprint no_records_message;;
    ret 2%Z
  else
    Sink.save_to_csv w final_records (output a);;
    print ("Saved " +:+ Py.str_nat (length final_records)
           +:+ " records to " +:+ output a);;
    ret 0%Z.

(** [sys.exit(main())]: the exit status of the process is what [main]
    returns, and 1 when an exception leaves [main]. *)
Definition exit_status (o : outcome Z) : Z :=
  match o with
  | Ok code => code
  | Raise _ => 1%Z
  end.

Definition run (w : World) (a : args) : Z * state :=
  let (o, σ) := main w a initial in (exit_status o, σ).

End Orchestrator.

(** ** Sample inputs *)

Module Samples.
Import Sys.

(** A [<td>] holding [text], a table with the identifier [tdata] of rows of
    such cells, and the tree [BeautifulSoup] builds for a page that consists
    of the node [n]. *)
Definition td (text : string) : Soup.node :=
  Soup.Tag "td" [] (if decide (text = "") then [] else [Soup.NavigableString text]).

Definition table_of (rows : list (list string)) : Soup.node :=
  Soup.Tag "table" [("id", "tdata")]
           ((λ cells, Soup.Tag "tr" [] (td <$> cells)) <$> rows).

Definition document (n : Soup.node) : Soup.node :=
  Soup.Tag "[document]" [] [n].

(** A row whose first primary number is written with one digit, and a row
    whose issue and first primary number are not numbers. *)
Definition one_digit_row : list string :=
  ["2023002"; "8"; "09"; "10"; "11"; "12"; "13"; "16";
   ""; ""; ""; ""; ""; ""; ""; "2023-01-05"].

Definition not_a_number_row : list string :=
  ["n/a"; "x"; "09"; "10"; "11"; "12"; "13"; "16";
   ""; ""; ""; ""; ""; ""; ""; "2023-01-07"].

Definition record_2023001 : DrawRecord :=
  mkDrawRecord "2023001" "01" "02" "03" "04" "05" "06" "07" "2023-01-03".

(** Two more records: one with the issue of [record_2023001] and other
    numbers, one with an earlier issue. *)
Definition record_2023001_redrawn : DrawRecord :=
  mkDrawRecord "2023001" "11" "12" "13" "14" "15" "16" "09" "2023-01-04".

Definition record_2022150 : DrawRecord :=
  mkDrawRecord "2022150" "21" "22" "23" "24" "25" "26" "03" "2022-12-29".

Definition item_2023001 : json :=
  JDict [("lotteryDrawNum", JStr "2023001");
         ("lotteryDrawResult", JStr "01 02 03 04 05 06+07");
         ("lotteryDrawTime", JStr "2023-01-03")].

Definition page_of (items : list json) : json :=
  JDict [("value", JDict [("list", JList items)])].

Definition newline : string := String (ascii_of_nat 10) EmptyString.

(** The item above with a line feed after its result string. *)
Definition item_trailing_newline : json :=
  JDict [("lotteryDrawNum", JStr "2023001");
         ("lotteryDrawResult", JStr ("01 02 03 04 05 06+07" +:+ newline));
         ("lotteryDrawTime", JStr "2023-01-03")].

Definition page_no_of (rq : request) : option string :=
  Soup.attr_get "pageNo" (params rq).

(** A world without [requests] and [bs4]: page 1 of the paged API holds
    [item_2023001], the request for page 2 times out; the table endpoint
    answers with a page that has no table; every directory can be created,
    every file opened and every row written. *)
Definition world_page2_down : World := {|
  requests := false;
  BeautifulSoup := None;
  json_loads := λ text, if decide (text = "page 1")
                        then Some (page_of [item_2023001]) else None;
  repr := λ _, "";
  http_get := λ _ rq,
    match page_no_of rq with
    | Some "1" => Ok "page 1"
    | Some _ => Raise (URLError "timed out")
    | None => Ok ""
    end;
  makedirs := λ _, Ok tt;
  open_w := λ _, Ok tt;
  csv_writerow := λ _ _, Ok tt
|}.

(** The same world with [requests] installed. *)
Definition world_with_requests : World := {|
  requests := true;
  BeautifulSoup := None;
  json_loads := json_loads world_page2_down;
  repr := repr world_page2_down;
  http_get := http_get world_page2_down;
  makedirs := makedirs world_page2_down;
  open_w := open_w world_page2_down;
  csv_writerow := csv_writerow world_page2_down
|}.

Definition args_of (out : string) (src : Orchestrator.source_choice)
    (pages : Z) (test : bool) : Orchestrator.args :=
  Orchestrator.mkArgs out src "03001" "99999" pages 200 test.

End Samples.

(** ** Notions the statements use *)

Module TableClaims.
Import Py.

(** A cell that is all digits (one or more). *)
Definition is_digits (s : string) : bool :=
  negb (bool_decide (s = "")) && forallb isdigit (list_ascii_of_string s).

(** A cell of one or two digits. *)
Definition is_digits_1_2 (s : string) : bool :=
  is_digits s && (String.length s <=? 2).

(** The two-digit zero-padded form of a cell of one or two digits. *)
Definition two_digit_form (s : string) : string :=
  if String.length s =? 1 then "0" +:+ s else s.

(** The continuation of [fullmatch]: succeed at the end of the input. *)
Definition at_end : string → option unit :=
  λ s', if decide (s' = "") then Some tt else None.

(** Is [n] repetitions within the upper bound [hi]? *)
Definition within (hi : option nat) (n : nat) : bool :=
  match hi with None => true | Some h => n <=? h end.

Definition digit_chars : list ascii :=
  ["0"; "1"; "2"; "3"; "4"; "5"; "6"; "7"; "8"; "9"]%char.

End TableClaims.

Module MarkupClaims.
Import Py.

(** A cell text without markup, entity or white space. *)
Definition plain_char (c : ascii) : bool :=
  negb (Ascii.eqb c "<") && negb (Ascii.eqb c "&") && negb (isspace c).

Definition plain (t : string) : bool :=
  forallb plain_char (list_ascii_of_string t).

(** The literal [lit] does not start inside [pre], whatever follows is
    [tail]. *)
Definition no_occurrence (ic : bool) (lit pre tail : string) : Prop :=
  ∀ a b, pre = a +:+ b → b ≠ "" → skip_literal ic lit (b +:+ tail) = None.

(** The opening tag of the table, and the markup of cells and rows. *)
Definition table_open : string :=
  "<table id=" +:+ TableSource.dquote +:+ "tdata" +:+ TableSource.dquote
  +:+ ">".

Definition cell_markup (t : string) : string := "<td>" +:+ t +:+ "</td>".

Definition cells_markup (cells : list string) : string :=
  foldr (λ t acc, cell_markup t +:+ acc) "" cells.

Definition row_markup (cells : list string) : string :=
  "<tr>" +:+ cells_markup cells +:+ "</tr>".

Definition rows_markup (rows : list (list string)) : string :=
  foldr (λ cells acc, row_markup cells +:+ acc) "" rows.

(** What the structural path makes of a row of at least 16 cell texts: it
    asks for a non-empty issue, secondary number and primary numbers, and
    copies. *)
Definition copied_record (cells : list string) : option DrawRecord :=
  if bool_decide (cells !!! 0 = "") || bool_decide (cells !!! 7 = "")
     || negb (forallb (λ x, negb (bool_decide (x = "")))
                      (take 6 (drop 1 cells)))
  then None
  else Some {|
    issue := cells !!! 0;
    red1 := cells !!! 1;
    red2 := cells !!! 2;
    red3 := cells !!! 3;
    red4 := cells !!! 4;
    red5 := cells !!! 5;
    red6 := cells !!! 6;
    blue := cells !!! 7;
    date := cells !!! 15
  |}.

(** A row of at least 16 cells with an all-digit issue and every number in
    exactly two digits. *)
Definition two_digit_row (cells : list string) : Prop :=
  16 ≤ length cells
  ∧ TableClaims.is_digits (cells !!! 0) = true
  ∧ ∀ i, 1 ≤ i ≤ 7 →
         TableClaims.is_digits (cells !!! i) = true
         ∧ String.length (cells !!! i) = 2.

End MarkupClaims.

Module PagedClaims.
Import Sys.

(** [it.get(key)] for the item with the entries [items]. *)
Definition field (items : list (string * json)) (key : string) : json :=
  default JNull (assoc key items).

(** The issue of the item with the entries [items]. *)
Definition issue_text (repr : json → string) (items : list (string * json))
  : string :=
  str repr (por (por (field items "lotteryDrawNum") (field items "issue"))
                (JStr "")).

(** The request of [fetch_from_sporttery_with_urllib] for page [page_no]. *)
Definition page_request (page_no : nat) : request :=
  mkRequest false PagedJson.base_url (PagedJson.page_params page_no).

(** The state after the request [rq] was sent, and after the records [l]
    were appended to [records]. *)
Definition logged (σ : state) (rq : request) : state :=
  mkState (net_log σ ++ [rq]) (stdout σ) (stderr σ) (files σ) (records σ).

Definition appended (σ : state) (l : list DrawRecord) : state :=
  mkState (net_log σ) (stdout σ) (stderr σ) (files σ) (records σ ++ l).

End PagedClaims.

Module Frames.
Import Sys.

(** [m] takes every state to a state related to it by [R], whether it
    returns or raises. *)
Definition keeps {A} (R : relation state) (m : M A) : Prop :=
  ∀ σ, R σ (m σ).2.

(** Nothing printed and no file written. *)
Definition same_output : relation state := λ σ σ',
  stdout σ' = stdout σ ∧ stderr σ' = stderr σ ∧ files σ' = files σ.

(** No request sent. *)
Definition same_net : relation state := λ σ σ', net_log σ' = net_log σ.

(** Requests are only added, and [records] is only appended to. *)
Definition net_grows : relation state := λ σ σ',
  net_log σ `prefix_of` net_log σ'.

Definition records_grow : relation state := λ σ σ',
  records σ `prefix_of` records σ'.

End Frames.

Module FlexNotions.
Import Sys.

(** The request of [fetch_from_cwl_with_urllib]. *)
Definition notice_request (issue_count : Z) : request :=
  mkRequest false FlexJson.url
            [("name", "ssq"); ("issueCount", str_int issue_count)].

(** [[n for n in re.split(r"[ ,;|+]", reds) if n]]. *)
Definition red_tokens (reds : string) : list string :=
  filter (λ n, n ≠ "") (Py.split FlexJson.delim_re reds).

End FlexNotions.

Module ParseNotions.
Import Py TableClaims.

(** A number written with exactly two digits. *)
Definition two_digits (s : string) : bool :=
  is_digits s && (String.length s =? 2).

(** The seven numbers of a record, the secondary number last. *)
Definition numbers (r : DrawRecord) : list string :=
  [red1 r; red2 r; red3 r; red4 r; red5 r; red6 r; blue r].

(** The digit tests of the regex path, on a record. *)
Definition digit_record (r : DrawRecord) : bool :=
  is_digits (issue r) && forallb is_digits_1_2 (numbers r).

(** The record with its numbers in two-digit form. *)
Definition padded (r : DrawRecord) : DrawRecord := {|
  issue := issue r;
  red1 := two_digit_form (red1 r);
  red2 := two_digit_form (red2 r);
  red3 := two_digit_form (red3 r);
  red4 := two_digit_form (red4 r);
  red5 := two_digit_form (red5 r);
  red6 := two_digit_form (red6 r);
  blue := two_digit_form (blue r);
  date := date r
|}.

(** A row of 16 cells with two-digit numbers. *)
Definition two_digit_sample_row : list string :=
  ["2023003"; "01"; "09"; "10"; "11"; "12"; "13"; "16";
   "x"; "x"; "x"; "x"; "x"; "x"; "x"; "2023-01-08"].

End ParseNotions.

Module RegexNotions.

(** [rest] is empty or starts with a character outside [cls]. *)
Definition stops (cls : ascii → bool) (rest : string) : bool :=
  match rest with
  | String c _ => negb (cls c)
  | EmptyString => true
  end.

End RegexNotions.

Module SnippetNotions.
Import Py.

(** A snippet of markup cut into its pieces: text, and tags given by what
    stands between [<] and [>]. *)
Inductive piece :=
| Text (t : string)
| Element (a : string).

Definition render (p : piece) : string :=
  match p with
  | Text t => t
  | Element a => "<" +:+ a +:+ ">"
  end.

Definition render_all (ps : list piece) : string :=
  foldr (λ p acc, render p +:+ acc) "" ps.

(** The text pieces, joined. *)
Definition text_of (ps : list piece) : string :=
  foldr (λ p acc, match p with Text t => t +:+ acc | Element _ => acc end)
        "" ps.

(** A text holds no [<]; a tag is not empty and holds no [>]. *)
Definition well_formed (p : piece) : bool :=
  match p with
  | Text t => forallb (not_char "<") (list_ascii_of_string t)
  | Element a =>
      negb (bool_decide (a = ""))
      && forallb TableSource.not_gt (list_ascii_of_string a)
  end.

End SnippetNotions.

Module SinkNotions.

(** A path without a slash: a bare file name. *)
Definition bare (path : string) : bool :=
  forallb (λ c, negb (Sink.is_slash c)) (list_ascii_of_string path).

End SinkNotions.

Module TransportNotions.
Import Py Transport.

(** The characters of a lower-cased encoding name. *)
Definition lower_word_or_dash (c : ascii) : bool :=
  let n := nat_of_ascii c in
  ((97 <=? n) && (n <=? 122)) || isdigit c || Ascii.eqb c "_"
  || Ascii.eqb c "-".

(** The bytes of an ASCII text. *)
Definition bytes_of (s : string) : list Byte.byte :=
  byte_of_ascii <$> list_ascii_of_string s.

End TransportNotions.

(** Evaluate the closed tests of [main] on the chosen source. *)
Ltac eval_closed_tests :=
  repeat match goal with
         | |- context [bool_decide ?P] =>
             let b := eval vm_compute in (bool_decide P) in
             change (bool_decide P) with b
         end.

(** * Theorems *)

Module PyFacts.
Import Py.

Lemma skip_literal_length ic lit s s' :
  skip_literal ic lit s = Some s' →
  String.length s = String.length lit + String.length s'.
Proof.
  revert s. induction lit as [|a lit IH]; intros s H.
  - simpl in H. by injection H as ->.
  - destruct s as [|b s]; simpl in H; [done|].
    destruct (char_eq ic a b); [|done]. simpl. by rewrite (IH s H).
Qed.

Lemma repeat_match_length {R} cls lo hi greedy s (k : string → option R) x :
  repeat_match cls lo hi greedy s k = Some x →
  ∃ s', lo + String.length s' ≤ String.length s ∧ k s' = Some x.
Proof.
  revert lo hi x. induction s as [|c s IH]; intros lo hi x H.
  - simpl in H. destruct greedy, lo; simpl in H; try done.
    + exists "". split; [simpl; lia|done].
    + destruct (k "") eqn:E; [|done]. injection H as ->.
      exists "". split; [simpl; lia|done].
  - assert (∀ y, (if cls c && may_take hi
                  then repeat_match cls (pred lo) (taken hi) greedy s k
                  else None) = Some y →
                 ∃ s', lo + String.length s' ≤ String.length (String c s)
                       ∧ k s' = Some y) as Hmore.
    { intros y Hy. destruct (cls c && may_take hi); [|done].
      destruct (IH _ _ _ Hy) as (s' & Hlen & Hk). exists s'.
      split; [simpl; lia|done]. }
    assert (∀ y, match lo with O => k (String c s) | S _ => None end = Some y →
                 ∃ s', lo + String.length s' ≤ String.length (String c s)
                       ∧ k s' = Some y) as Hstop.
    { intros y Hy. destruct lo; [|done]. exists (String c s).
      split; [simpl; lia|done]. }
    simpl in H. destruct greedy.
    + destruct (if cls c && may_take hi then _ else _) eqn:E.
      * injection H as ->. by apply Hmore.
      * by apply Hstop.
    + destruct (match lo with O => _ | S _ => _ end) eqn:E.
      * injection H as ->. by apply Hstop.
      * by apply Hmore.
Qed.

Lemma run_length {R} ic r s gs (k : string → list string → option R) x :
  run ic r s gs k = Some x →
  ∃ s' gs', min_len r + String.length s' ≤ String.length s
            ∧ k s' gs' = Some x.
Proof.
  revert s gs k. induction r as [lit|cls lo hi greedy|r IH|r1 IH1 r2 IH2];
    intros s gs k H; simpl in H.
  - destruct (skip_literal ic lit s) as [s'|] eqn:E; [|done].
    apply skip_literal_length in E. exists s', gs. simpl. split; [lia|done].
  - apply repeat_match_length in H as (s' & Hlen & Hk). by exists s', gs.
  - apply IH in H as (s' & gs' & Hlen & Hk). by eexists s', _.
  - apply IH1 in H as (s1 & gs1 & Hlen1 & H).
    apply IH2 in H as (s2 & gs2 & Hlen2 & Hk). exists s2, gs2.
    simpl. split; [lia|done].
Qed.

Lemma search_length ic r s m :
  search ic r s = Some m →
  min_len r + String.length (m_after m) ≤ String.length s.
Proof.
  revert m. induction s as [|c s IH]; intros m H; simpl in H.
  - destruct (match_at ic r "") as [[gs rest]|] eqn:E; [|done].
    injection H as <-. unfold match_at in E.
    apply run_length in E as (s' & gs' & Hlen & [= <- <-]). done.
  - destruct (match_at ic r (String c s)) as [[gs rest]|] eqn:E.
    + injection H as <-. unfold match_at in E.
      apply run_length in E as (s' & gs' & Hlen & [= <- <-]). done.
    + destruct (search ic r s) as [m'|] eqn:E'; [|done]. injection H as <-.
      specialize (IH m' eq_refl). simpl in *. lia.
Qed.

(** The fuel of [finditer] is enough: more fuel finds the same matches. *)
Lemma finditer_fuel_enough ic r s n :
  0 < min_len r → String.length s ≤ n →
  finditer_fuel n ic r s = finditer ic r s.
Proof.
  intros Hmin. unfold finditer.
  assert (∀ n m s, String.length s ≤ n → String.length s ≤ m →
                   finditer_fuel n ic r s = finditer_fuel m ic r s) as H.
  { clear n s. induction n as [|n IH]; intros m s Hn Hm.
    - destruct m as [|m]; [done|]. simpl.
      destruct (search ic r s) as [m'|] eqn:E; [|done].
      apply search_length in E. lia.
    - destruct m as [|m].
      + simpl. destruct (search ic r s) as [m'|] eqn:E; [|done].
        apply search_length in E. lia.
      + simpl. destruct (search ic r s) as [m'|] eqn:E; [|done].
        pose proof (search_length _ _ _ _ E). f_equal. apply IH; lia. }
  intros Hn. by apply H.
Qed.

Lemma replace_fuel_enough old new s n :
  old ≠ "" → String.length s < n →
  replace_fuel n old new s = replace old new s.
Proof.
  intros Hold. unfold replace.
  assert (∀ n m s, String.length s < n → String.length s < m →
                   replace_fuel n old new s = replace_fuel m old new s) as H.
  { clear n s. induction n as [|n IH]; intros m s Hn Hm; [lia|].
    destruct m as [|m]; [lia|]. simpl.
    destruct (skip_literal false old s) as [rest|] eqn:E.
    - apply skip_literal_length in E. f_equal.
      destruct old; [done|]. simpl in E. apply IH; lia.
    - destruct s as [|c s]; [done|]. simpl in *. f_equal. apply IH; lia. }
  intros Hn. apply H; [done|lia].
Qed.

End PyFacts.

Module MergerFacts.
Import Merger.

Lemma build_snoc records r :
  build_by_issue (records ++ [r]) = by_issue_step (build_by_issue records) r.
Proof. unfold build_by_issue. by rewrite foldl_app. Qed.

Lemma last_with_issue_snoc k records r :
  last_with_issue k (records ++ [r]) =
  if decide (issue r = k) then Some r else last_with_issue k records.
Proof.
  unfold last_with_issue. rewrite filter_app, filter_cons, filter_nil.
  case_decide.
  - by rewrite last_snoc.
  - by rewrite app_nil_r.
Qed.

(** The dict built by the loop maps every non-empty issue to the last record
    carrying it, and has no entry for the empty issue. *)
Lemma build_lookup records k :
  build_by_issue records !! k =
  if decide (k = "") then None else last_with_issue k records.
Proof.
  induction records as [|r records IH] using rev_ind.
  - unfold build_by_issue, last_with_issue. simpl. rewrite lookup_empty.
    by case_decide.
  - rewrite build_snoc, last_with_issue_snoc. unfold by_issue_step.
    destruct (decide (issue r = "")) as [He|He].
    + rewrite IH. repeat case_decide; congruence.
    + destruct (decide (issue r = k)) as [<-|Hne].
      * rewrite lookup_insert_eq. by rewrite decide_False.
      * by rewrite lookup_insert_ne.
Qed.

Lemma last_with_issue_Some k records r :
  last_with_issue k records = Some r → issue r = k ∧ r ∈ records.
Proof.
  unfold last_with_issue. intros H.
  apply last_Some_elem_of in H. by apply list_elem_of_filter in H.
Qed.

Lemma build_lookup_Some records k r :
  build_by_issue records !! k = Some r → k ≠ "" ∧ issue r = k ∧ r ∈ records.
Proof.
  rewrite build_lookup. case_decide; [done|].
  intros Hl. apply last_with_issue_Some in Hl. tauto.
Qed.

Lemma sorted_keys_perm (m : gmap string DrawRecord) :
  sorted_keys m ≡ₚ (map_to_list m).*1.
Proof. apply merge_sort_Permutation. Qed.

Lemma sorted_keys_NoDup (m : gmap string DrawRecord) : NoDup (sorted_keys m).
Proof. rewrite sorted_keys_perm. apply NoDup_fst_map_to_list. Qed.

Lemma sorted_keys_sorted (m : gmap string DrawRecord) :
  StronglySorted String.le (sorted_keys m).
Proof. apply StronglySorted_merge_sort; apply _. Qed.

(** Every key handed to the subscript is a key of the dict. *)
Lemma sorted_keys_present (m : gmap string DrawRecord) k :
  k ∈ sorted_keys m ↔ is_Some (m !! k).
Proof.
  rewrite sorted_keys_perm, list_elem_of_fmap. split.
  - intros [[k' r] [-> H]]. apply elem_of_map_to_list in H. by exists r.
  - intros [r H]. exists (k, r). split; [done|]. by apply elem_of_map_to_list.
Qed.

Lemma lookup_total_sorted_key (m : gmap string DrawRecord) k :
  k ∈ sorted_keys m → m !! k = Some (m !!! k).
Proof.
  intros [r H]%sorted_keys_present. by rewrite (lookup_total_correct _ _ _ H).
Qed.

Lemma dedupe_elem records r :
  r ∈ dedupe_and_sort records ↔
  issue r ≠ "" ∧ build_by_issue records !! issue r = Some r.
Proof.
  unfold dedupe_and_sort. rewrite list_elem_of_fmap. split.
  - intros [k [-> Hk]]. apply lookup_total_sorted_key in Hk.
    destruct (build_lookup_Some _ _ _ Hk) as (? & Hi & _).
    rewrite Hi. done.
  - intros [_ H]. exists (issue r). split.
    + by rewrite (lookup_total_correct _ _ _ H).
    + apply sorted_keys_present. by exists r.
Qed.

Lemma dedupe_issues records :
  issue <$> dedupe_and_sort records = sorted_keys (build_by_issue records).
Proof.
  unfold dedupe_and_sort. rewrite <- list_fmap_compose.
  rewrite <- (list_fmap_id (sorted_keys _)) at 2.
  apply list_fmap_ext. intros i k Hk%list_elem_of_lookup_2. simpl.
  apply lookup_total_sorted_key in Hk.
  by destruct (build_lookup_Some _ _ _ Hk) as (_ & ? & _).
Qed.

Lemma filter_issue_of_keys (m : gmap string DrawRecord) ks k :
  NoDup ks → (∀ k', k' ∈ ks → issue (m !!! k') = k') →
  filter (λ r, issue r = k) ((λ k', m !!! k') <$> ks) =
  if decide (k ∈ ks) then [m !!! k] else [].
Proof.
  induction ks as [|k0 ks IH]; intros Hnd Hiss.
  - by rewrite decide_False by apply not_elem_of_nil.
  - apply NoDup_cons in Hnd as [Hk0 Hnd]. rewrite fmap_cons, filter_cons.
    rewrite IH; [|done|intros; apply Hiss; by right].
    rewrite (Hiss k0) by left.
    destruct (decide (k0 = k)) as [->|Hne].
    + rewrite (decide_True (P := k ∈ k :: ks)) by left.
      by rewrite decide_False.
    + destruct (decide (k ∈ ks)) as [Hin|Hin].
      * by rewrite decide_True by by right.
      * rewrite decide_False; [done|]. rewrite elem_of_cons.
        intros [?|?]; congruence.
Qed.

(** The output holds, for an issue [k], the dict's entry for [k] and nothing
    else. *)
Lemma dedupe_filter_issue records k :
  filter (λ r, issue r = k) (dedupe_and_sort records) =
  option_list (build_by_issue records !! k).
Proof.
  unfold dedupe_and_sort. rewrite filter_issue_of_keys.
  - case_decide as Hk.
    + by rewrite (lookup_total_sorted_key _ _ Hk).
    + destruct (build_by_issue records !! k) eqn:E; [|done].
      exfalso. apply Hk, sorted_keys_present. by eexists.
  - apply sorted_keys_NoDup.
  - intros k' Hk'%lookup_total_sorted_key.
    by destruct (build_lookup_Some _ _ _ Hk') as (_ & ? & _).
Qed.

Lemma StronglySorted_strict {A} (R : relation A) `{!AntiSymm (=) R}
    (l : list A) :
  StronglySorted R l → NoDup l → StronglySorted (strict R) l.
Proof.
  induction 1 as [|x l Hs IH Hx]; intros Hnd; constructor.
  - apply IH. by apply NoDup_cons in Hnd as [_ ?].
  - apply NoDup_cons in Hnd as [Hnin _].
    rewrite Forall_forall in Hx. apply Forall_forall. intros y Hy. split.
    + by apply Hx.
    + intros Hyx. apply Hnin.
      by rewrite (anti_symm R x y (Hx y Hy) Hyx).
Qed.

(** C5: when a record [r] with a non-empty issue is the last of the input
    with that issue, whatever precedes it (in particular other records with
    the same issue and different content), the output of [dedupe_and_sort]
    contains exactly one record with that issue, and it is [r]. *)
Theorem dedupe_last_write_wins (pre post : list DrawRecord) (r : DrawRecord) :
  issue r ≠ "" →
  Forall (λ x, issue x ≠ issue r) post →
  filter (λ x, issue x = issue r) (dedupe_and_sort (pre ++ r :: post)) = [r].
Proof.
  intros Hne Hpost. rewrite dedupe_filter_issue, build_lookup.
  rewrite decide_False by done. unfold last_with_issue.
  rewrite filter_app, filter_cons_True by done.
  replace (filter _ post) with (@nil DrawRecord).
  - by rewrite last_snoc.
  - clear -Hpost. induction Hpost as [|x post Hx _ IH]; [done|].
    by rewrite filter_cons_False.
Qed.

Lemma dedupe_last_write_wins_witness :
  filter (λ x, issue x = issue Samples.record_2023001_redrawn)
         (dedupe_and_sort ([Samples.record_2023001]
                           ++ Samples.record_2023001_redrawn
                           :: [Samples.record_2022150]))
  = [Samples.record_2023001_redrawn].
Proof.
  apply (dedupe_last_write_wins [Samples.record_2023001]
           [Samples.record_2022150] Samples.record_2023001_redrawn).
  - discriminate.
  - repeat constructor. discriminate.
Defined.

(** The scenario of two records with distinct issues, and of two records
    with one issue. *)
Example dedupe_and_sort_scenarios :
  dedupe_and_sort [Samples.record_2023001; Samples.record_2022150]
  = [Samples.record_2022150; Samples.record_2023001]
  ∧ dedupe_and_sort [Samples.record_2023001; Samples.record_2023001_redrawn]
    = [Samples.record_2023001_redrawn]
  ∧ dedupe_and_sort [] = [].
Proof. by vm_compute. Qed.

(** C6: the issues of the output of [dedupe_and_sort] are in non-decreasing
    order for the code point order of strings. *)
Theorem dedupe_issues_sorted (records : list DrawRecord) :
  Sorted String.le (issue <$> dedupe_and_sort records).
Proof. rewrite dedupe_issues. apply Sorted_merge_sort; apply _. Qed.

(** C7: [dedupe_and_sort] is idempotent. *)
Theorem dedupe_idempotent (records : list DrawRecord) :
  dedupe_and_sort (dedupe_and_sort records) = dedupe_and_sort records.
Proof.
  assert (build_by_issue (dedupe_and_sort records) = build_by_issue records)
    as Hb.
  { apply map_eq. intros k. rewrite (build_lookup (dedupe_and_sort _)).
    case_decide as Hk.
    - rewrite build_lookup. by rewrite decide_True.
    - unfold last_with_issue. rewrite dedupe_filter_issue.
      by destruct (build_by_issue records !! k). }
  unfold dedupe_and_sort at 1. by rewrite Hb.
Qed.

(** C10: every record of the output of [dedupe_and_sort] is a record of the
    input, and the issues of the output are strictly increasing, hence
    pairwise distinct. *)
Theorem dedupe_selects_distinct (records : list DrawRecord) :
  (∀ r, r ∈ dedupe_and_sort records → r ∈ records) ∧
  StronglySorted (strict String.le) (issue <$> dedupe_and_sort records) ∧
  NoDup (issue <$> dedupe_and_sort records).
Proof.
  split; [|split].
  - intros r [_ H]%dedupe_elem. by apply build_lookup_Some in H as (_ & _ & ?).
  - rewrite dedupe_issues. apply StronglySorted_strict.
    + apply _.
    + apply sorted_keys_sorted.
    + apply sorted_keys_NoDup.
  - rewrite dedupe_issues. apply sorted_keys_NoDup.
Qed.

End MergerFacts.

Module TableFacts.
Import Py TableSource Samples TableClaims.

Lemma repeat_match_at_end cls lo hi s :
  repeat_match cls lo hi true s at_end =
  if forallb cls (list_ascii_of_string s) && (lo <=? String.length s)
     && within hi (String.length s)
  then Some tt else None.
Proof.
  revert lo hi. induction s as [|c s IH]; intros lo hi.
  - simpl. destruct lo; simpl; [|done]. unfold at_end. simpl.
    by destruct hi.
  - simpl. destruct (cls c) eqn:Hc; simpl.
    + destruct (may_take hi) eqn:Hm.
      * rewrite IH.
        assert ((pred lo <=? String.length s) = (lo <=? S (String.length s)))
          as -> by (destruct lo; simpl; [done|]; done).
        assert (within (taken hi) (String.length s)
                = within hi (S (String.length s))) as ->.
        { destruct hi as [[|h]|]; simpl in *; done. }
        destruct (_ && _ && _); [done|]. by destruct lo.
      * destruct hi as [[|h]|]; try discriminate. simpl.
        rewrite andb_false_r. by destruct lo.
    + by destruct lo.
Qed.

Lemma fullmatch_repeat cls lo hi s :
  fullmatch false (Repeat cls lo hi true) s =
  forallb cls (list_ascii_of_string s) && (lo <=? String.length s)
  && within hi (String.length s).
Proof.
  unfold fullmatch. simpl. fold at_end. rewrite repeat_match_at_end.
  by destruct (_ && _ && _).
Qed.

Lemma fullmatch_digits s : fullmatch false digits_re s = is_digits s.
Proof.
  unfold digits_re, plus. rewrite fullmatch_repeat. unfold is_digits. simpl.
  rewrite andb_true_r. destruct s; simpl; [done|].
  by rewrite andb_true_r.
Qed.

Lemma fullmatch_digits_1_2 s :
  fullmatch false digits_1_2_re s = is_digits_1_2 s.
Proof.
  unfold digits_1_2_re. rewrite fullmatch_repeat.
  unfold is_digits_1_2, is_digits. simpl.
  destruct s; simpl; [done|]. by rewrite andb_true_r.
Qed.

Lemma isdigit_cases c :
  isdigit c = true →
  c ∈ ["0"; "1"; "2"; "3"; "4"; "5"; "6"; "7"; "8"; "9"]%char.
Proof.
  destruct c as [[] [] [] [] [] [] [] []]; vm_compute; intros H;
    try discriminate H; set_solver.
Qed.

Lemma format_two_digit_form s :
  is_digits_1_2 s = true → format_02d (int_digits s) = two_digit_form s.
Proof.
  assert (Forall (λ c, format_02d (int_digits (String c "")) =
                       two_digit_form (String c "")) digit_chars) as H1.
  { unfold digit_chars. repeat constructor. }
  assert (Forall (λ c1, Forall (λ c2,
            format_02d (int_digits (String c1 (String c2 ""))) =
            two_digit_form (String c1 (String c2 ""))) digit_chars)
          digit_chars) as H2.
  { unfold digit_chars. repeat constructor. }
  rewrite Forall_forall in H1. rewrite Forall_forall in H2.
  unfold is_digits_1_2, is_digits.
  destruct s as [|c1 [|c2 [|c3 s]]]; simpl; try done.
  - rewrite !andb_true_r. intros Hc%isdigit_cases. by apply H1.
  - rewrite !andb_true_r. intros [Hc1%isdigit_cases Hc2%isdigit_cases]%andb_prop.
    specialize (H2 c1 Hc1). rewrite Forall_forall in H2. by apply H2.
  - rewrite andb_false_r. done.
Qed.

Lemma two_digit_form_example :
  two_digit_form "8" = "08" ∧ two_digit_form "08" = "08"
  ∧ two_digit_form "16" = "16".
Proof. done. Qed.

(** On the regex path a row of at least 16 cells with an all-digit issue
    and one- or two-digit numbers gives one record, its numbers in
    two-digit form. *)
Lemma regex_row_record_accepts (td_values : list string) :
  16 ≤ length td_values →
  is_digits (td_values !!! 0) = true →
  (∀ i, 1 ≤ i ≤ 7 → is_digits_1_2 (td_values !!! i) = true) →
  regex_row_record td_values = Some {|
    issue := td_values !!! 0;
    red1 := two_digit_form (td_values !!! 1);
    red2 := two_digit_form (td_values !!! 2);
    red3 := two_digit_form (td_values !!! 3);
    red4 := two_digit_form (td_values !!! 4);
    red5 := two_digit_form (td_values !!! 5);
    red6 := two_digit_form (td_values !!! 6);
    blue := two_digit_form (td_values !!! 7);
    date := td_values !!! 15
  |}.
Proof.
  intros Hlen Hissue Hnum.
  do 16 (destruct td_values as [|? td_values]; [simpl in Hlen; lia|]).
  pose proof (Hnum 1 ltac:(lia)) as H1. pose proof (Hnum 2 ltac:(lia)) as H2.
  pose proof (Hnum 3 ltac:(lia)) as H3. pose proof (Hnum 4 ltac:(lia)) as H4.
  pose proof (Hnum 5 ltac:(lia)) as H5. pose proof (Hnum 6 ltac:(lia)) as H6.
  pose proof (Hnum 7 ltac:(lia)) as H7. clear Hnum Hlen.
  unfold regex_row_record.
  cbn -[format_02d int_digits fullmatch two_digit_form is_digits
        is_digits_1_2] in *.
  rewrite fullmatch_digits, !fullmatch_digits_1_2.
  rewrite Hissue, H1, H2, H3, H4, H5, H6, H7.
  cbn -[format_02d int_digits two_digit_form].
  by rewrite !format_two_digit_form.
Qed.

(** On the regex path a row with fewer than 16 cells, or with an issue or a
    number that fails its digit test, gives no record. *)
Lemma regex_row_record_rejects (td_values : list string) :
  length td_values < 16
  ∨ is_digits (td_values !!! 0) = false
  ∨ (∃ i, 1 ≤ i ≤ 7 ∧ is_digits_1_2 (td_values !!! i) = false) →
  regex_row_record td_values = None.
Proof.
  intros H. unfold regex_row_record.
  destruct (length td_values <? 16) eqn:Hlen; [done|].
  apply Nat.ltb_ge in Hlen.
  destruct H as [H|H]; [lia|].
  do 16 (destruct td_values as [|? td_values]; [simpl in Hlen; lia|]).
  cbn -[format_02d int_digits fullmatch is_digits is_digits_1_2].
  rewrite fullmatch_digits, !fullmatch_digits_1_2.
  destruct H as [H|(i & Hi & H)].
  - cbn -[is_digits] in H. by rewrite H.
  - assert (i = 1 ∨ i = 2 ∨ i = 3 ∨ i = 4 ∨ i = 5 ∨ i = 6 ∨ i = 7) as Hcase
      by lia.
    destruct_or!; subst i; cbn -[is_digits_1_2] in H; rewrite H;
      rewrite ?andb_false_r; done.
Qed.
(** C1: on a table with a row whose first primary number has one digit and a
    row whose issue and first primary number are not numbers, the structural
    parse of [parse_500_history_html] returns a record for each row, the
    cell texts copied as they are: ["8"] is not padded and the second row is
    not skipped. *)
Theorem structural_parse_copies_cells (parser : string → Soup.node) :
  let page := table_of [one_digit_row; not_a_number_row] in
  parser (markup page) = document page →
  parse_500_history_html (Some parser) (markup page) =
    [ mkDrawRecord "2023002" "8" "09" "10" "11" "12" "13" "16" "2023-01-05";
      mkDrawRecord "n/a" "x" "09" "10" "11" "12" "13" "16" "2023-01-07" ].
Proof.
  intros page Hparse. unfold parse_500_history_html. rewrite Hparse.
  vm_compute. reflexivity.
Qed.

Lemma structural_parse_copies_cells_witness :
  let page := table_of [one_digit_row; not_a_number_row] in
  parse_500_history_html (Some (λ _, document page)) (markup page) =
    [ mkDrawRecord "2023002" "8" "09" "10" "11" "12" "13" "16" "2023-01-05";
      mkDrawRecord "n/a" "x" "09" "10" "11" "12" "13" "16" "2023-01-07" ].
Proof.
  apply (structural_parse_copies_cells (λ _, document (table_of [one_digit_row; not_a_number_row]))).
  reflexivity.
Defined.

(** C2: on a table with the identifier [tdata] and one row of 16 cells, an
    all-digit issue and one- or two-digit numbers, the structural parse and
    the regex parse return different records: the first keeps ["8"], the
    second writes ["08"]. *)
Theorem parses_differ_on_one_digit (parser : string → Soup.node) :
  let page := table_of [one_digit_row] in
  parser (markup page) = document page →
  parse_500_history_html (Some parser) (markup page) =
    [ mkDrawRecord "2023002" "8" "09" "10" "11" "12" "13" "16" "2023-01-05" ]
  ∧ parse_500_history_html None (markup page) =
    [ mkDrawRecord "2023002" "08" "09" "10" "11" "12" "13" "16" "2023-01-05" ].
Proof.
  intros page Hparse. split.
  - unfold parse_500_history_html. rewrite Hparse. vm_compute. reflexivity.
  - vm_compute. reflexivity.
Qed.

Lemma parses_differ_on_one_digit_witness :
  let page := table_of [one_digit_row] in
  parse_500_history_html (Some (λ _, document page)) (markup page) =
    [ mkDrawRecord "2023002" "8" "09" "10" "11" "12" "13" "16" "2023-01-05" ]
  ∧ parse_500_history_html None (markup page) =
    [ mkDrawRecord "2023002" "08" "09" "10" "11" "12" "13" "16" "2023-01-05" ].
Proof.
  apply (parses_differ_on_one_digit
           (λ _, document (table_of [one_digit_row]))).
  reflexivity.
Defined.
End TableFacts.

Module MarkupFacts.
Import Py TableSource Samples TableClaims MarkupClaims TableFacts.

#[local] Arguments String.append : simpl nomatch.

Lemma append_assoc (a b c : string) : (a +:+ b) +:+ c = a +:+ (b +:+ c).
Proof. induction a as [|x a IH]; simpl; [done|]. by rewrite IH. Qed.

Lemma append_nil_r (a : string) : a +:+ "" = a.
Proof. induction a as [|x a IH]; simpl; [done|]. by rewrite IH. Qed.

Lemma length_append (a b : string) :
  String.length (a +:+ b) = String.length a + String.length b.
Proof. induction a as [|x a IH]; simpl; [done|]. by rewrite IH. Qed.

Lemma consumed_append (a b : string) : consumed (a +:+ b) b = a.
Proof.
  unfold consumed. rewrite length_append.
  replace (String.length a + String.length b - String.length b)
    with (String.length a) by lia.
  induction a as [|x a IH]; simpl.
  - by destruct b.
  - by rewrite IH.
Qed.

Lemma repeat_lazy_unfold {R} cls s (k : string → option R) :
  repeat_match cls 0 None false s k =
  match k s with
  | Some r => Some r
  | None =>
      match s with
      | String c s' => if cls c then repeat_match cls 0 None false s' k else None
      | EmptyString => None
      end
  end.
Proof. destruct s; simpl; [done|]. by rewrite andb_true_r. Qed.

(** The lazy star stops at the first place where the rest of the pattern
    matches. *)
Lemma lazy_scan {R} (pre tail : string) (f : string → option R) (x : R) :
  (∀ a b, pre = a +:+ b → b ≠ "" → f (b +:+ tail) = None) →
  f tail = Some x →
  repeat_match any_char 0 None false (pre +:+ tail) f = Some x.
Proof.
  intros Hpre Htail. induction pre as [|c pre IH].
  - simpl. by rewrite repeat_lazy_unfold, Htail.
  - change (String c pre +:+ tail) with (String c (pre +:+ tail)).
    rewrite repeat_lazy_unfold.
    pose proof (Hpre "" (String c pre) eq_refl ltac:(done)) as H0.
    simpl in H0. rewrite H0. change (any_char c) with true. cbv iota.
    apply IH. intros a b -> Hb. by apply (Hpre (String c a) b).
Qed.

Lemma no_occurrence_nil ic lit tail : no_occurrence ic lit "" tail.
Proof. intros [|? a] [|? b] E Hb; simplify_eq/=. Qed.

Lemma no_occurrence_cons ic lit c pre tail :
  skip_literal ic lit (String c (pre +:+ tail)) = None →
  no_occurrence ic lit pre tail →
  no_occurrence ic lit (String c pre) tail.
Proof.
  intros Hc Hpre [|x a] b E Hb; simpl in E.
  - by subst b.
  - injection E as -> ->. by apply (Hpre a b).
Qed.

Lemma no_occurrence_app ic lit p1 p2 tail :
  no_occurrence ic lit p1 (p2 +:+ tail) →
  no_occurrence ic lit p2 tail →
  no_occurrence ic lit (p1 +:+ p2) tail.
Proof.
  revert p2. induction p1 as [|c p1 IH]; intros p2 H1 H2; simpl; [done|].
  apply no_occurrence_cons.
  - rewrite append_assoc. apply (H1 "" (String c p1)); done.
  - apply IH; [|done]. intros a b -> Hb. by apply (H1 (String c a) b).
Qed.

Lemma lower_lt c : (c =? "<")%char = false → (lower c =? "<")%char = false.
Proof.
  destruct c as [[] [] [] [] [] [] [] []]; vm_compute; done.
Qed.

(** A literal that starts with [<] does not start inside a plain text. *)
Lemma no_occurrence_plain ic lit t tail :
  plain t = true →
  no_occurrence ic (String "<" lit) t tail.
Proof.
  unfold plain. induction t as [|c t IH]; simpl; intros Ht.
  - apply no_occurrence_nil.
  - apply andb_prop in Ht as [Hc Ht]. apply no_occurrence_cons; [|by apply IH].
    simpl. unfold plain_char in Hc.
    apply andb_prop in Hc as [[Hc _]%andb_prop _].
    apply negb_true_iff in Hc. unfold char_eq. destruct ic.
    + change (lower "<") with "<"%char. rewrite Ascii.eqb_sym.
      by rewrite (lower_lt c Hc).
    + by rewrite Ascii.eqb_sym, Hc.
Qed.


(** What is left of [Group (lazy_star any_char) ⋅ Lit lit] at the end of a
    pattern: scan to the first [lit]. *)
Lemma run_lazy_group_lit ic lit pre rest gs :
  no_occurrence ic lit pre (lit +:+ rest) →
  run ic (Group (lazy_star any_char) ⋅ Lit lit)%re (pre +:+ lit +:+ rest) gs
      (λ s' gs', Some (gs', s'))
  = Some (gs ++ [pre], rest).
Proof.
  intros Hno. cbn [run lazy_star].
  assert (skip_literal ic lit (lit +:+ rest) = Some rest) as Hlit.
  { clear. induction lit as [|c lit IH]; simpl; [done|].
    unfold char_eq. destruct ic; by rewrite Ascii.eqb_refl. }
  apply lazy_scan.
  - intros a b -> Hb. by rewrite (Hno a b).
  - by rewrite Hlit, consumed_append.
Qed.

Lemma open_td {R} s gs (k : string → list string → option R) :
  run true td_re ("<td>" +:+ s) gs k
  = run true (Group (lazy_star any_char) ⋅ Lit "</td>")%re s gs k.
Proof. reflexivity. Qed.

Lemma open_tr {R} s gs (k : string → list string → option R) :
  run true tr_re ("<tr>" +:+ s) gs k
  = run true (Group (lazy_star any_char) ⋅ Lit "</tr>")%re s gs k.
Proof. reflexivity. Qed.

Lemma match_td t rest :
  plain t = true →
  match_at true td_re (cell_markup t +:+ rest) = Some ([t], rest).
Proof.
  intros Ht. unfold match_at, cell_markup.
  rewrite !append_assoc, open_td.
  by rewrite run_lazy_group_lit by by apply no_occurrence_plain.
Qed.

Lemma search_at_start ic r s gs rest :
  match_at ic r s = Some (gs, rest) → search ic r s = Some (mkMatch "" gs rest).
Proof. intros H. destruct s; simpl; by rewrite H. Qed.

(** The [<td>] matches of the markup of plain cells are the cells. *)
Lemma finditer_cells cells n :
  forallb plain cells = true →
  String.length (cells_markup cells) ≤ n →
  group1 <$> finditer_fuel n true td_re (cells_markup cells) = cells.
Proof.
  revert n. induction cells as [|t cells IH]; intros n Hplain Hn.
  - by destruct n.
  - simpl in Hplain. apply andb_prop in Hplain as [Ht Hplain].
    simpl in Hn. unfold cell_markup in Hn. rewrite !length_append in Hn.
    destruct n as [|n]; [simpl in Hn; lia|].
    cbn [finditer_fuel cells_markup foldr].
    rewrite (search_at_start _ _ _ _ _ (match_td t _ Ht)).
    cbn [fmap list_fmap m_after]. f_equal.
    apply IH; [done|]. simpl in Hn. lia.
Qed.

Lemma td_values_of_cells cells :
  forallb plain cells = true →
  (group1 <$> finditer true td_re (cells_markup cells)) = cells.
Proof. intros H. by apply finditer_cells. Qed.


(** A closing tag does not start inside a literal piece of markup: try
    every position. *)
Ltac no_occurrence_literal :=
  repeat (apply no_occurrence_cons; [reflexivity|]); apply no_occurrence_nil.

Lemma no_close_in_cell (lit : string) t tail :
  plain t = true →
  lit = "/tr>" ∨ lit = "/table>" →
  no_occurrence true (String "<" lit) (cell_markup t) tail.
Proof.
  intros Ht Hlit. unfold cell_markup.
  apply no_occurrence_app; [|apply no_occurrence_app].
  - destruct Hlit as [-> | ->]; no_occurrence_literal.
  - by apply no_occurrence_plain.
  - destruct Hlit as [-> | ->]; no_occurrence_literal.
Qed.

Lemma no_close_in_cells (lit : string) cells tail :
  forallb plain cells = true →
  lit = "/tr>" ∨ lit = "/table>" →
  no_occurrence true (String "<" lit) (cells_markup cells) tail.
Proof.
  intros Hplain Hlit. induction cells as [|t cells IH];
    cbn [cells_markup foldr].
  - apply no_occurrence_nil.
  - simpl in Hplain. apply andb_prop in Hplain as [Ht Hplain].
    apply no_occurrence_app; [by apply no_close_in_cell|by apply IH].
Qed.

Lemma match_tr cells rest :
  forallb plain cells = true →
  match_at true tr_re (row_markup cells +:+ rest)
  = Some ([cells_markup cells], rest).
Proof.
  intros Hplain. unfold match_at, row_markup.
  rewrite !append_assoc, open_tr.
  rewrite run_lazy_group_lit; [done|]. apply no_close_in_cells; auto.
Qed.

Lemma finditer_rows rows n :
  forallb (forallb plain) rows = true →
  String.length (rows_markup rows) ≤ n →
  group1 <$> finditer_fuel n true tr_re (rows_markup rows)
  = cells_markup <$> rows.
Proof.
  revert n. induction rows as [|cells rows IH]; intros n Hplain Hn.
  - by destruct n.
  - simpl in Hplain. apply andb_prop in Hplain as [Hc Hplain].
    simpl in Hn. unfold row_markup in Hn. rewrite !length_append in Hn.
    destruct n as [|n]; [simpl in Hn; lia|].
    cbn [finditer_fuel rows_markup foldr].
    rewrite (search_at_start _ _ _ _ _ (match_tr cells _ Hc)).
    cbn [fmap list_fmap m_after]. f_equal.
    apply IH; [done|]. simpl in Hn. lia.
Qed.

Lemma no_table_close_in_rows rows tail :
  forallb (forallb plain) rows = true →
  no_occurrence true "</table>" (rows_markup rows) tail.
Proof.
  intros Hplain. induction rows as [|cells rows IH];
    cbn [rows_markup foldr].
  - apply no_occurrence_nil.
  - simpl in Hplain. apply andb_prop in Hplain as [Hc Hplain].
    apply no_occurrence_app; [|by apply IH]. unfold row_markup.
    apply no_occurrence_app; [|apply no_occurrence_app].
    + no_occurrence_literal.
    + apply no_close_in_cells; auto.
    + no_occurrence_literal.
Qed.

Lemma open_table {R} s gs (k : string → list string → option R) :
  run true table_re (table_open +:+ s) gs k
  = run true (Group (lazy_star any_char) ⋅ Lit "</table>")%re s gs k.
Proof.
  change (run true table_re (table_open +:+ s) gs k)
    with (match run true (Group (lazy_star any_char) ⋅ Lit "</table>")%re
                     s gs k with
          | Some r => Some r
          | None => None
          end).
  by destruct (run _ _ _ _ _).
Qed.

Lemma markup_td t : markup (td t) = cell_markup t.
Proof.
  unfold td, cell_markup. case_decide; subst; [reflexivity|].
  cbn [markup]. rewrite append_nil_r. reflexivity.
Qed.

Lemma markup_cells cells :
  (fix all (l : list Soup.node) : string :=
     match l with
     | [] => ""
     | c :: l' => markup c +:+ all l'
     end) (td <$> cells) = cells_markup cells.
Proof.
  induction cells as [|t cells IH]; [done|].
  cbn [fmap list_fmap cells_markup foldr]. by rewrite markup_td, IH.
Qed.

Lemma markup_row cells :
  markup (Soup.Tag "tr" [] (td <$> cells)) = row_markup cells.
Proof.
  cbn [markup]. rewrite markup_cells. reflexivity.
Qed.

Lemma markup_rows rows :
  (fix all (l : list Soup.node) : string :=
     match l with
     | [] => ""
     | c :: l' => markup c +:+ all l'
     end) ((λ cells, Soup.Tag "tr" [] (td <$> cells)) <$> rows)
  = rows_markup rows.
Proof.
  induction rows as [|cells rows IH]; [done|].
  cbn [fmap list_fmap rows_markup foldr]. by rewrite markup_row, IH.
Qed.

Lemma markup_table rows :
  markup (table_of rows) = table_open +:+ rows_markup rows +:+ "</table>".
Proof.
  unfold table_of. cbn [markup]. rewrite markup_rows. reflexivity.
Qed.

Lemma search_table rows :
  forallb (forallb plain) rows = true →
  search true table_re (markup (table_of rows))
  = Some (mkMatch "" [rows_markup rows] "").
Proof.
  intros Hplain. apply search_at_start. unfold match_at.
  rewrite markup_table, open_table.
  rewrite <- (append_nil_r "</table>") at 2.
  rewrite run_lazy_group_lit; [done|]. by apply no_table_close_in_rows.
Qed.


Lemma plain_cons c t :
  plain (String c t) = true ↔ plain_char c = true ∧ plain t = true.
Proof. unfold plain. simpl. apply andb_true_iff. Qed.

Lemma plain_char_inv c :
  plain_char c = true →
  (c =? "<")%char = false ∧ (c =? "&")%char = false ∧ isspace c = false.
Proof.
  unfold plain_char. intros [[H1 H2]%andb_prop H3]%andb_prop.
  by rewrite !negb_true_iff in *.
Qed.

Lemma search_tag_plain t : plain t = true → search false tag_re t = None.
Proof.
  induction t as [|c t IH]; intros Ht; [done|].
  apply plain_cons in Ht as [Hc Ht]. apply plain_char_inv in Hc as (Hc & _ & _).
  cbn [search]. rewrite (IH Ht).
  assert (match_at false tag_re (String c t) = None) as ->; [|done].
  unfold match_at, tag_re. cbn [run skip_literal char_eq].
  by rewrite Ascii.eqb_sym, Hc.
Qed.

Lemma sub_tag_plain t : plain t = true → sub tag_re "" t = t.
Proof.
  intros Ht. unfold sub, finditer.
  destruct (String.length t); cbn [finditer_fuel]; [done|].
  by rewrite search_tag_plain.
Qed.

Lemma replace_nbsp_plain t : plain t = true → replace "&nbsp;" " " t = t.
Proof.
  intros Ht. unfold replace.
  assert (∀ n, String.length t < n → replace_fuel n "&nbsp;" " " t = t) as H.
  { induction t as [|c t IH]; intros n Hn.
    - destruct n; [simpl in Hn; lia|done].
    - apply plain_cons in Ht as [Hc Ht].
      apply plain_char_inv in Hc as (_ & Hc & _).
      destruct n as [|n]; [lia|]. cbn [replace_fuel skip_literal char_eq].
      rewrite Ascii.eqb_sym, Hc. f_equal. apply IH; [done|]. simpl in Hn. lia. }
  apply H. lia.
Qed.

Lemma rstrip_plain t : plain t = true → rstrip t = t.
Proof.
  induction t as [|c t IH]; intros Ht; [done|].
  apply plain_cons in Ht as [Hc Ht].
  apply plain_char_inv in Hc as (_ & _ & Hc).
  cbn [rstrip]. rewrite (IH Ht). destruct t; [by rewrite Hc|done].
Qed.

Lemma strip_plain t : plain t = true → strip t = t.
Proof.
  intros Ht. unfold strip.
  assert (lstrip t = t) as ->; [|by apply rstrip_plain].
  destruct t as [|c t]; [done|].
  apply plain_cons in Ht as [Hc _].
  apply plain_char_inv in Hc as (_ & _ & Hc). simpl. by rewrite Hc.
Qed.

Lemma strip_tags_plain t : plain t = true → _strip_tags t = t.
Proof.
  intros Ht. unfold _strip_tags.
  by rewrite sub_tag_plain, replace_nbsp_plain, strip_plain.
Qed.

Lemma td_values_of_row cells :
  forallb plain cells = true →
  td_values_of (cells_markup cells) = cells.
Proof.
  intros Hplain. unfold td_values_of.
  rewrite (list_fmap_compose group1 _strip_tags).
  rewrite td_values_of_cells by done.
  clear -Hplain. induction cells as [|t cells IH]; [done|].
  simpl in Hplain. apply andb_prop in Hplain as [Ht Hplain].
  cbn [fmap list_fmap]. by rewrite strip_tags_plain, IH.
Qed.

(** The regex parse of the markup of a table of plain cells is the row
    function of the regex path applied to every row. *)
Lemma regex_parse_markup (rows : list (list string)) :
  forallb (forallb plain) rows = true →
  parse_500_history_html_regex (markup (table_of rows))
  = omap regex_row_record rows.
Proof.
  intros Hplain. unfold parse_500_history_html_regex.
  rewrite search_table by done. cbv zeta.
  change (group1 (mkMatch "" [rows_markup rows] "")) with (rows_markup rows).
  pose proof (finditer_rows rows (String.length (rows_markup rows)) Hplain
                            (le_n _)) as Hrows.
  fold (finditer true tr_re (rows_markup rows)) in Hrows.
  revert Hrows Hplain. generalize (finditer true tr_re (rows_markup rows)).
  induction rows as [|cells rows IH]; intros ms Hms Hplain.
  - by destruct ms.
  - destruct ms as [|m ms]; [done|]. cbn [fmap list_fmap] in Hms.
    injection Hms as Hm Hms. simpl in Hplain.
    apply andb_prop in Hplain as [Hc Hplain].
    cbn [omap list_omap]. rewrite Hm, (td_values_of_row _ Hc).
    by rewrite (IH ms Hms Hplain).
Qed.


Lemma get_text_td t : plain t = true → Soup.get_text_strip (td t) = t.
Proof.
  intros Ht. unfold td. case_decide as E; [by subst|].
  unfold Soup.get_text_strip, Soup.stripped_strings.
  cbn [Soup.descendants omap list_omap app]. rewrite strip_plain by done.
  rewrite decide_False by done. cbn [foldr]. apply append_nil_r.
Qed.

Lemma descendants_td_no_tag name t :
  List.filter (Soup.matches name []) (Soup.descendants (td t)) = [].
Proof. unfold td. by case_decide. Qed.

Lemma find_all_td cells :
  Soup.find_all "td" (Soup.Tag "tr" [] (td <$> cells)) = td <$> cells.
Proof.
  unfold Soup.find_all. cbn [Soup.descendants].
  induction cells as [|t cells IH]; [done|].
  cbn [fmap list_fmap]. cbn [List.filter].
  assert (Soup.matches "td" [] (td t) = true) as -> by (unfold td; done).
  rewrite List.filter_app, descendants_td_no_tag. cbn [app].
  f_equal. exact IH.
Qed.

Lemma row_no_tr cells :
  List.filter (Soup.matches "tr" [])
              (Soup.descendants (Soup.Tag "tr" [] (td <$> cells))) = [].
Proof.
  cbn [Soup.descendants]. induction cells as [|t cells IH]; [done|].
  cbn [fmap list_fmap List.filter].
  assert (Soup.matches "tr" [] (td t) = false) as -> by (unfold td; done).
  by rewrite List.filter_app, descendants_td_no_tag.
Qed.

Lemma find_all_tr rows :
  Soup.find_all "tr" (table_of rows)
  = (λ cells, Soup.Tag "tr" [] (td <$> cells)) <$> rows.
Proof.
  unfold Soup.find_all, table_of. cbn [Soup.descendants].
  induction rows as [|cells rows IH]; [done|].
  cbn [fmap list_fmap List.filter].
  assert (Soup.matches "tr" [] (Soup.Tag "tr" [] (td <$> cells)) = true)
    as -> by done.
  rewrite List.filter_app, row_no_tr. cbn [app]. f_equal. exact IH.
Qed.

Lemma find_table rows :
  Soup.find "table" [("id", "tdata")] (document (table_of rows))
  = Some (table_of rows).
Proof. reflexivity. Qed.

Lemma soup_row_record_plain cells :
  forallb plain cells = true →
  16 ≤ length cells →
  soup_row_record (td <$> cells) = copied_record cells.
Proof.
  intros Hplain Hlen.
  do 16 (destruct cells as [|? cells]; [simpl in Hlen; lia|]).
  cbn [forallb] in Hplain. repeat rewrite andb_true_iff in Hplain.
  destruct_and!.
  unfold soup_row_record, copied_record.
  cbn -[Soup.get_text_strip td bool_decide].
  rewrite !get_text_td by done.
  by rewrite (bool_decide_eq_false_2 (_ :: _ = [])) by done.
Qed.

(** The structural parse of a table of plain cells, all rows of at least 16
    cells. *)
Lemma soup_parse_markup (parser : string → Soup.node)
    (rows : list (list string)) :
  parser (markup (table_of rows)) = document (table_of rows) →
  forallb (forallb plain) rows = true →
  Forall (λ cells, 16 ≤ length cells) rows →
  parse_500_history_html (Some parser) (markup (table_of rows))
  = omap copied_record rows.
Proof.
  intros Hparse Hplain Hlen. unfold parse_500_history_html.
  rewrite Hparse. cbv zeta. rewrite find_table, find_all_tr. clear Hparse.
  induction Hlen as [|cells rows Hc Hlen IH]; [done|].
  simpl in Hplain. apply andb_prop in Hplain as [Hp Hplain].
  cbn [fmap list_fmap omap list_omap].
  rewrite find_all_td, (soup_row_record_plain cells Hp Hc).
  by rewrite (IH Hplain).
Qed.

Lemma digits_plain t : is_digits t = true → plain t = true.
Proof.
  unfold is_digits, plain. intros [_ H]%andb_prop.
  induction (list_ascii_of_string t) as [|c l IH]; [done|].
  simpl in *. apply andb_prop in H as [Hc Hl]. rewrite (IH Hl), andb_true_r.
  apply isdigit_cases in Hc. unfold digit_chars in Hc.
  set_unfold in Hc. destruct_or!; subst; done.
Qed.


Lemma two_digit_form_id t : String.length t = 2 → two_digit_form t = t.
Proof. unfold two_digit_form. by intros ->. Qed.

Lemma is_digits_nonempty t : is_digits t = true → t ≠ "".
Proof. by intros H ->. Qed.

Lemma two_digit_row_records cells :
  two_digit_row cells → copied_record cells = regex_row_record cells.
Proof.
  intros (Hlen & Hissue & Hnum).
  rewrite (regex_row_record_accepts cells Hlen Hissue).
  2:{ intros i Hi. destruct (Hnum i Hi) as [Hd Hl].
      unfold is_digits_1_2. by rewrite Hd, Hl. }
  pose proof (Hnum 1 ltac:(lia)) as [D1 L1].
  pose proof (Hnum 2 ltac:(lia)) as [D2 L2].
  pose proof (Hnum 3 ltac:(lia)) as [D3 L3].
  pose proof (Hnum 4 ltac:(lia)) as [D4 L4].
  pose proof (Hnum 5 ltac:(lia)) as [D5 L5].
  pose proof (Hnum 6 ltac:(lia)) as [D6 L6].
  pose proof (Hnum 7 ltac:(lia)) as [D7 L7].
  rewrite !two_digit_form_id by done.
  apply is_digits_nonempty in Hissue, D1, D2, D3, D4, D5, D6, D7.
  clear Hnum L1 L2 L3 L4 L5 L6 L7.
  do 16 (destruct cells as [|? cells]; [simpl in Hlen; lia|]).
  unfold copied_record. cbn -[bool_decide] in *.
  by rewrite !bool_decide_eq_false_2 by done.
Qed.

(** X23: on the markup of a table with the identifier [tdata] whose cells are
    plain and whose rows have at least 16 cells, an all-digit issue and
    numbers of exactly two digits, the structural parse and the regex parse
    return the same records. *)
Lemma parses_agree_on_two_digit_rows (parser : string → Soup.node)
    (rows : list (list string)) :
  parser (markup (table_of rows)) = document (table_of rows) →
  forallb (forallb plain) rows = true →
  Forall two_digit_row rows →
  parse_500_history_html (Some parser) (markup (table_of rows))
  = parse_500_history_html None (markup (table_of rows)).
Proof.
  intros Hparse Hplain Hrows.
  rewrite (soup_parse_markup parser rows Hparse Hplain).
  2:{ eapply Forall_impl; [exact Hrows|]. by intros cells (? & _). }
  cbn [parse_500_history_html]. rewrite regex_parse_markup by done.
  clear -Hrows. induction Hrows as [|cells rows Hc _ IH]; [done|].
  cbn [omap list_omap]. by rewrite (two_digit_row_records cells Hc), IH.
Qed.

(** On the markup of a table of plain cells the regex path gives, row by
    row, one record with its numbers in two-digit form for a row of at least
    16 cells with an all-digit issue and one- or two-digit numbers, and
    nothing for a row that is shorter or fails a digit test. *)
Lemma regex_parse_markup_rows (rows : list (list string)) :
  forallb (forallb plain) rows = true →
  parse_500_history_html None (markup (table_of rows))
  = omap regex_row_record rows.
Proof. apply regex_parse_markup. Qed.

End MarkupFacts.

Module RunFacts.
Import Sys Orchestrator.

Lemma bind_run {A B} (m : M A) (k : A → M B) (σ : state) :
  (m ≫= k) σ = match m σ with
               | (Ok a, σ') => k a σ'
               | (Raise e, σ') => (Raise e, σ')
               end.
Proof. reflexivity. Qed.

Lemma extend_from_run (all_records : list DrawRecord)
    (fetch : M (list DrawRecord)) (σ : state) :
  Orchestrator.extend_from all_records fetch σ =
  match fetch σ with
  | (Ok recs, σ') => (Ok (all_records ++ recs), σ')
  | (Raise _, σ') => (Ok all_records, σ')
  end.
Proof.
  unfold Orchestrator.extend_from, try_except, mbind, M_bind, bind.
  by destruct (fetch σ) as [[] ?].
Qed.

Lemma extend_from_ok (all_records : list DrawRecord)
    (fetch : M (list DrawRecord)) (σ : state) :
  ∃ l σ', extend_from all_records fetch σ = (Ok l, σ').
Proof.
  rewrite extend_from_run. destruct (fetch σ) as [[] ?]; eauto.
Qed.

(** No exception leaves the three source branches. *)
Lemma collect_ok (w : World) (a : args) (σ : state) :
  ∃ l σ', collect w a σ = (Ok l, σ').
Proof.
  unfold collect.
  set (m1 := if bool_decide (source a = SourceAll ∨ source a = SourceSporttery)
             then _ else _).
  assert (∃ l σ', m1 σ = (Ok l, σ')) as (l1 & σ1 & H1).
  { subst m1. repeat case_match; eauto using extend_from_ok. }
  rewrite bind_run, H1.
  set (m2 := if bool_decide (source a = SourceAll ∨ source a = Source500)
             then _ else _).
  assert (∃ l σ', m2 σ1 = (Ok l, σ')) as (l2 & σ2 & H2).
  { subst m2. case_match; eauto using extend_from_ok. }
  rewrite bind_run, H2.
  case_match; eauto using extend_from_ok.
Qed.

Lemma collect_sporttery_urllib (w : World) (a : Orchestrator.args)
    (σ : state) :
  requests w = false →
  Orchestrator.source a = Orchestrator.SourceSporttery →
  Orchestrator.collect w a σ =
  Orchestrator.extend_from []
    (PagedJson.fetch_from_sporttery_with_urllib w (Orchestrator.max_pages a)) σ.
Proof.
  intros Hreq Hsrc. unfold Orchestrator.collect. rewrite Hreq, Hsrc.
  eval_closed_tests. cbn [andb]. unfold mbind, M_bind, bind, ret.
  by destruct (Orchestrator.extend_from _ _ σ) as [[] ?].
Qed.

(** Rows that can all be written are added to the file opened last. *)
Lemma writerows_ok {A} (w : World) (path : string) (f : A → list string)
    (l : list A) (σ : state) (p : string) (done : list (list string))
    (fs : list (string * list (list string))) :
  (∀ row, csv_writerow w path row = Ok tt) →
  files σ = (p, done) :: fs →
  for_each l (λ x, writerow w path (f x)) σ
  = (Ok tt, mkState (net_log σ) (stdout σ) (stderr σ)
                    ((p, done ++ (f <$> l)) :: fs) (records σ)).
Proof.
  intros Hrows. revert σ done.
  induction l as [|x l IH]; intros σ done Hfiles.
  - destruct σ. cbn in *. by rewrite Hfiles, app_nil_r.
  - cbn [for_each]. rewrite bind_run. unfold writerow at 1. rewrite Hrows.
    rewrite (IH _ (done ++ [f x])); [|by cbn; rewrite Hfiles].
    cbn. by rewrite <- app_assoc.
Qed.

Lemma save_to_csv_writable (w : World) (recs : list DrawRecord)
    (path : string) (σ : state) :
  Sink.writable w path →
  Sink.save_to_csv w recs path σ =
  (Ok tt, mkState (net_log σ) (stdout σ) (stderr σ)
                  ((path, Sink.header :: (to_row <$> recs)) :: files σ)
                  (records σ)).
Proof.
  intros (Hdir & Hmk & Hopen & Hrows). unfold Sink.save_to_csv.
  rewrite bind_run. unfold Sink.os_makedirs.
  rewrite (bool_decide_eq_false_2 _ Hdir), Hmk. cbn [lift].
  rewrite bind_run. unfold open_file. rewrite Hopen.
  rewrite bind_run. unfold writerow at 1. rewrite Hrows.
  cbn [files add_row app].
  by rewrite (writerows_ok w path to_row recs _ path [Sink.header] (files σ)).
Qed.

(** [main] outside the self test, once the sources have answered. *)
Lemma main_normal_run (w : World) (a : args) (all : list DrawRecord)
    (σ : state) :
  selftest a = false →
  collect w a initial = (Ok all, σ) →
  main w a initial =
  if bool_decide (Merger.dedupe_and_sort all = []) then
    (Ok 2%Z, mkState (net_log σ) (stdout σ) (stderr σ ++ [no_records_message])
                     (files σ) (records σ))
  else
    (Sink.save_to_csv w (Merger.dedupe_and_sort all) (output a);;
     print ("Saved " +:+ Py.str_nat (length (Merger.dedupe_and_sort all))
            +:+ " records to " +:+ output a);;
     ret 0%Z) σ.
Proof.
  intros Hself Hcollect. unfold main. rewrite Hself.
  rewrite bind_run, Hcollect. by case_bool_decide.
Qed.

End RunFacts.

Module PagedFacts.
Import Sys PagedJson Samples PagedClaims RunFacts.

Lemma tokens_length_7 (nums : list string) :
  7 ≤ length nums →
  ∃ n0 n1 n2 n3 n4 n5 n6 rest, nums = n0 :: n1 :: n2 :: n3 :: n4 :: n5 :: n6 :: rest.
Proof.
  intros H. do 7 (destruct nums as [|? nums]; [simpl in H; lia|]).
  by repeat eexists.
Qed.

(** C4, amended: an item with a non-empty issue whose result string, once
    stripped of surrounding white space, splits into at least 7 non-empty
    tokens gives exactly one record; its six primary numbers are the first
    6 tokens and its secondary number the 7th, as they are. *)
Theorem item_record_stripped_tokens (repr : json → string)
    (items : list (string * json)) (res : string) :
  assoc "lotteryDrawResult" items = Some (JStr res) →
  issue_text repr items ≠ "" →
  7 ≤ length (tokens (Py.strip res)) →
  ∃ r, item_record repr (JDict items) = Ok (Some r)
       ∧ issue r = issue_text repr items
       ∧ [red1 r; red2 r; red3 r; red4 r; red5 r; red6 r]
         = take 6 (tokens (Py.strip res))
       ∧ tokens (Py.strip res) !! 6 = Some (blue r).
Proof.
  intros Hres Hissue Hlen.
  assert (Py.strip res ≠ "") as Hcode.
  { intros E. rewrite E in Hlen. vm_compute in Hlen. lia. }
  unfold item_record. cbn -[tokens Py.strip str por].
  rewrite Hres. cbn -[tokens Py.strip str por].
  fold (field items "lotteryDrawNum") (field items "issue").
  fold (issue_text repr items).
  assert (strip (por (JStr res) (JStr "")) = Ok (Py.strip res)) as ->.
  { unfold por. simpl. case_bool_decide as E; simpl; [by rewrite E|done]. }
  cbn -[tokens Py.strip str por].
  rewrite (bool_decide_eq_false_2 _ Hissue), (bool_decide_eq_false_2 _ Hcode).
  cbn -[tokens Py.strip str por].
  destruct (tokens_length_7 _ Hlen) as (n0&n1&n2&n3&n4&n5&n6&rest&E).
  rewrite E. cbn -[str por]. eexists. split; [reflexivity|]. done.
Qed.

Lemma item_record_stripped_tokens_witness :
  ∃ r, item_record (λ _, "") item_2023001 = Ok (Some r)
       ∧ issue r = "2023001"
       ∧ [red1 r; red2 r; red3 r; red4 r; red5 r; red6 r]
         = ["01"; "02"; "03"; "04"; "05"; "06"]
       ∧ tokens (Py.strip "01 02 03 04 05 06+07") !! 6 = Some (blue r).
Proof.
  apply (item_record_stripped_tokens (λ _, "")
           [("lotteryDrawNum", JStr "2023001");
            ("lotteryDrawResult", JStr "01 02 03 04 05 06+07");
            ("lotteryDrawTime", JStr "2023-01-03")]
           "01 02 03 04 05 06+07").
  - reflexivity.
  - vm_compute. discriminate.
  - vm_compute. lia.
Defined.

(** A result string that ends with a line feed: it splits into 7 non-empty
    tokens, the 7th is ["07"] followed by the line feed, and the secondary
    number of the record is ["07"]. *)
Lemma item_record_raw_tokens_counterexample :
  let res := "01 02 03 04 05 06+07" +:+ newline in
  item_trailing_newline
  = JDict [("lotteryDrawNum", JStr "2023001");
           ("lotteryDrawResult", JStr res);
           ("lotteryDrawTime", JStr "2023-01-03")]
  ∧ 7 ≤ length (tokens res)
  ∧ tokens res !! 6 = Some ("07" +:+ newline)
  ∧ item_record (λ _, "") item_trailing_newline = Ok (Some record_2023001)
  ∧ ¬ ∃ r, item_record (λ _, "") item_trailing_newline = Ok (Some r)
           ∧ tokens res !! 6 = Some (blue r).
Proof.
  cbv zeta. split; [reflexivity|]. split; [vm_compute; lia|].
  split; [by vm_compute|]. split; [by vm_compute|].
  intros (r & Hr & Hblue). vm_compute in Hr. injection Hr as <-.
  vm_compute in Hblue. discriminate Hblue.
Qed.

(** An item that gives a record appends that one record to [records]. *)
Lemma append_items_one (w : World) (it : json) (r : DrawRecord) (σ : state) :
  item_record (repr w) it = Ok (Some r) →
  append_items w (JList [it]) σ = (Ok tt, appended σ [r]).
Proof.
  intros Hit. unfold append_items, mbind, M_bind, bind, lift.
  cbn [iter for_each]. unfold mbind, M_bind, bind, lift. by rewrite Hit.
Qed.

Lemma page_loop_S (w : World) (n p : nat) (σ : state) :
  page_loop w (S n) p σ =
  match http_get w (net_log σ) (page_request p) with
  | Raise e => (Raise e, logged σ (page_request p))
  | Ok text =>
      match json_loads w text with
      | None => (Ok tt, logged σ (page_request p))
      | Some data =>
          (value ← lift (get data "value");
           list ← lift (get (por value (JDict [])) "list");
           let items := por list (JList []) in
           if negb (truthy items) then ret tt else
           append_items w items;; page_loop w n (S p))
            (logged σ (page_request p))
      end
  end.
Proof.
  cbn [page_loop]. rewrite bind_run. unfold _urllib_get, send.
  fold (page_request p). fold (logged σ (page_request p)).
  destruct (http_get w (net_log σ) (page_request p)); [|done].
  by destruct (json_loads w a).
Qed.

(** A page that does not decode ends the loop; [records] is as it was. *)
Lemma page_loop_decode_failure (w : World) (n p : nat) (σ : state)
    (text : string) :
  http_get w (net_log σ) (page_request p) = Ok text →
  json_loads w text = None →
  page_loop w (S n) p σ = (Ok tt, logged σ (page_request p)).
Proof. intros Hget Hjson. by rewrite page_loop_S, Hget, Hjson. Qed.

(** A request that fails raises out of the loop. *)
Lemma page_loop_fetch_failure (w : World) (n p : nat) (σ : state) (e : exn) :
  http_get w (net_log σ) (page_request p) = Raise e →
  page_loop w (S n) p σ = (Raise e, logged σ (page_request p)).
Proof. intros Hget. by rewrite page_loop_S, Hget. Qed.

(** A page that holds the one sample item appends its record and goes on
    with the next page. *)
Lemma page_loop_sample_page (w : World) (n p : nat) (σ : state)
    (text : string) :
  http_get w (net_log σ) (page_request p) = Ok text →
  json_loads w text = Some (page_of [item_2023001]) →
  page_loop w (S n) p σ =
  page_loop w n (S p) (appended (logged σ (page_request p)) [record_2023001]).
Proof. intros Hget Hjson. by rewrite page_loop_S, Hget, Hjson. Qed.

Lemma fetch_run (w : World) (max_pages : Z) (σ : state) :
  fetch_from_sporttery_with_urllib w max_pages σ =
  match page_loop w (Z.to_nat max_pages) 1
          (mkState (net_log σ) (stdout σ) (stderr σ) (files σ) []) with
  | (Ok _, σ') => (Ok (records σ'), σ')
  | (Raise e, σ') => (Raise e, σ')
  end.
Proof.
  unfold fetch_from_sporttery_with_urllib, mbind, M_bind, bind.
  unfold set_records, get_records.
  by destruct (page_loop _ _ _ _) as [[] ?].
Qed.

(** C3: when page 1 holds a valid item and the request for page 2 fails,
    [fetch_from_sporttery_with_urllib] raises the exception of the
    transport instead of returning the record of page 1, and [main] gathers
    nothing from this source. *)
Theorem fetch_failure_loses_earlier_pages (w : World) (text1 : string)
    (e : exn) :
  requests w = false →
  (∀ log, http_get w log (page_request 1) = Ok text1) →
  json_loads w text1 = Some (page_of [item_2023001]) →
  (∀ log, http_get w log (page_request 2) = Raise e) →
  (fetch_from_sporttery_with_urllib w 2 initial).1 = Raise e
  ∧ (Orchestrator.collect w
       (args_of "/data/ssq.csv" Orchestrator.SourceSporttery 2 false)
       initial).1 = Ok [].
Proof.
  intros Hreq H1 Hjson H2.
  assert (∃ σ, fetch_from_sporttery_with_urllib w 2 initial = (Raise e, σ))
    as [σ Hf].
  { rewrite fetch_run. change (Z.to_nat 2) with 2.
    rewrite (page_loop_sample_page _ _ _ _ text1) by done.
    rewrite (page_loop_fetch_failure _ _ _ _ e) by done. by eexists. }
  split; [by rewrite Hf|].
  rewrite collect_sporttery_urllib by done. rewrite extend_from_run.
  cbn [Orchestrator.max_pages args_of]. by rewrite Hf.
Qed.

Lemma fetch_failure_loses_earlier_pages_witness :
  (fetch_from_sporttery_with_urllib world_page2_down 2 initial).1
    = Raise (URLError "timed out")
  ∧ (Orchestrator.collect world_page2_down
       (args_of "/data/ssq.csv" Orchestrator.SourceSporttery 2 false)
       initial).1 = Ok [].
Proof.
  apply (fetch_failure_loses_earlier_pages world_page2_down "page 1");
    reflexivity.
Defined.

(** When page 2 answers with text that is no JSON, the record of page 1 is
    returned. *)
Lemma decode_failure_keeps_earlier_pages (w : World) (text1 text2 : string)
    (n : nat) :
  (∀ log, http_get w log (page_request 1) = Ok text1) →
  json_loads w text1 = Some (page_of [item_2023001]) →
  (∀ log, http_get w log (page_request 2) = Ok text2) →
  json_loads w text2 = None →
  (fetch_from_sporttery_with_urllib w (Z.of_nat (S (S n))) initial).1
  = Ok [record_2023001].
Proof.
  intros H1 Hjson1 H2 Hjson2.
  rewrite fetch_run, Nat2Z.id.
  rewrite (page_loop_sample_page _ _ _ _ text1) by done.
  by rewrite (page_loop_decode_failure _ _ _ _ text2).
Qed.
End PagedFacts.

Module OrchestratorFacts.
Import Sys Orchestrator Samples RunFacts.

(** Where the sink does not fail: outside the self test the exit status is
    2 exactly when the merged records of the selected sources are empty,
    and the diagnostic then goes to the error stream; when they are not
    empty and the output file can be written it is 0; a self test whose
    output file can be written exits with 0. *)
Lemma main_exit_status (w : World) (a : args) :
  (selftest a = false →
   ∃ all σ, collect w a initial = (Ok all, σ)
     ∧ ((run w a).1 = 2%Z ↔ Merger.dedupe_and_sort all = [])
     ∧ (Merger.dedupe_and_sort all = [] →
        stderr (run w a).2 = stderr σ ++ [no_records_message])
     ∧ (Merger.dedupe_and_sort all ≠ [] → Sink.writable w (output a) →
        (run w a).1 = 0%Z))
  ∧ (selftest a = true → Sink.writable w (output a) → (run w a).1 = 0%Z).
Proof.
  split.
  - intros Hself. destruct (collect_ok w a initial) as (all & σ & Hc).
    exists all, σ. split; [done|]. unfold run.
    rewrite (main_normal_run w a all σ Hself Hc).
    case_bool_decide as Hempty.
    + cbn. split; [done|]. split; [done|]. done.
    + split; [|split; [done|]].
      * split; [|done]. intros H2. exfalso. revert H2.
        rewrite bind_run.
        destruct (Sink.save_to_csv _ _ _ σ) as [[] ?]; cbn; discriminate.
      * intros _ Hw. rewrite bind_run.
        by rewrite (save_to_csv_writable _ _ _ _ Hw).
  - intros Hself Hw. unfold run, main. rewrite Hself. unfold run_selftest.
    rewrite bind_run.
    assert (selftest_sample_records (repr w) = Ok [record_2023001]) as ->
      by reflexivity.
    cbn [lift]. rewrite bind_run.
    by rewrite (save_to_csv_writable _ _ _ _ Hw).
Qed.

(** C9: with [requests] installed, a run with [--source cwl] outside the
    self test sends no request, gathers no record, writes the diagnostic to
    the error stream and exits with 2. *)
Theorem cwl_with_requests_queries_nothing (w : World) (a : args) :
  requests w = true →
  selftest a = false →
  source a = SourceCwl →
  collect w a initial = (Ok [], initial)
  ∧ run w a = (2%Z, mkState [] [] [no_records_message] [] []).
Proof.
  intros Hreq Hself Hsrc.
  assert (collect w a initial = (Ok [], initial)) as Hc.
  { unfold collect. rewrite Hreq, Hsrc. eval_closed_tests. reflexivity. }
  split; [exact Hc|]. unfold run.
  rewrite (main_normal_run w a [] initial Hself Hc). reflexivity.
Qed.

Lemma cwl_with_requests_queries_nothing_witness :
  collect world_with_requests (args_of "/data/ssq.csv" SourceCwl 200 false)
          initial = (Ok [], initial)
  ∧ run world_with_requests (args_of "/data/ssq.csv" SourceCwl 200 false)
    = (2%Z, mkState [] [] [no_records_message] [] []).
Proof.
  apply (cwl_with_requests_queries_nothing world_with_requests
           (args_of "/data/ssq.csv" SourceCwl 200 false));
    reflexivity.
Defined.

End OrchestratorFacts.

Module MergerLaws.
Import Merger MergerFacts.

(** X1: the issues of the output are the non-empty issues of the input: no
    record with an empty issue comes out, and no non-empty issue is lost. *)
Theorem dedupe_issues_complete (records : list DrawRecord) (k : string) :
  k ∈ issue <$> dedupe_and_sort records ↔
  k ≠ "" ∧ ∃ r, r ∈ records ∧ issue r = k.
Proof.
  rewrite dedupe_issues, sorted_keys_present, build_lookup. split.
  - intros [r Hr]. case_decide; [done|]. split; [done|].
    apply last_with_issue_Some in Hr as [? ?]. by exists r.
  - intros [Hk (r & Hin & Hr)]. rewrite decide_False by done.
    unfold last_with_issue.
    assert (r ∈ filter (λ x, issue x = k) records) as Hf
      by by apply list_elem_of_filter.
    destruct (filter _ records) as [|x l] using rev_ind.
    + by apply not_elem_of_nil in Hf.
    + rewrite last_snoc. by eexists.
Qed.

Lemma dedupe_issues_NoDup (records : list DrawRecord) :
  NoDup (issue <$> dedupe_and_sort records).
Proof. rewrite dedupe_issues. apply sorted_keys_NoDup. Qed.

Lemma last_with_issue_unique (l : list DrawRecord) (r : DrawRecord) :
  NoDup (issue <$> l) → r ∈ l → last_with_issue (issue r) l = Some r.
Proof.
  intros Hnd Hr. unfold last_with_issue.
  assert (filter (λ x, issue x = issue r) l = [r]) as ->; [|done].
  induction l as [|x l IH]; [by apply not_elem_of_nil in Hr|].
  rewrite fmap_cons in Hnd. apply NoDup_cons in Hnd as [Hx Hnd].
  rewrite filter_cons. apply elem_of_cons in Hr as [->|Hr].
  - rewrite decide_True by done. f_equal.
    clear IH. induction l as [|y l IH]; [done|].
    rewrite fmap_cons in Hx, Hnd. apply not_elem_of_cons in Hx as [Hxy Hx].
    apply NoDup_cons in Hnd as [_ Hnd].
    rewrite filter_cons_False by done. by apply IH.
  - rewrite decide_False; [by apply IH|].
    intros E. apply Hx. rewrite E. by apply list_elem_of_fmap_2.
Qed.

Lemma dedupe_elem_distinct (records : list DrawRecord) (r : DrawRecord) :
  NoDup (issue <$> records) →
  Forall (λ r, issue r ≠ "") records →
  r ∈ dedupe_and_sort records ↔ r ∈ records.
Proof.
  intros Hnd Hne. rewrite dedupe_elem, build_lookup. split.
  - intros [Hr H]. rewrite decide_False in H by done.
    by apply last_with_issue_Some in H as [_ ?].
  - intros Hr. rewrite Forall_forall in Hne. split; [by apply Hne|].
    rewrite decide_False by by apply Hne.
    by apply last_with_issue_unique.
Qed.

Lemma dedupe_perm_distinct (records : list DrawRecord) :
  NoDup (issue <$> records) →
  Forall (λ r, issue r ≠ "") records →
  dedupe_and_sort records ≡ₚ records.
Proof.
  intros Hnd Hne. apply NoDup_Permutation.
  - eapply NoDup_fmap_1. apply dedupe_issues_NoDup.
  - by eapply NoDup_fmap_1.
  - intros r. by apply dedupe_elem_distinct.
Qed.

(** X2: a list of records with pairwise distinct non-empty issues keeps all
    its records: the output has the length of the input and holds the same
    records. *)
Theorem dedupe_distinct_keeps_all (records : list DrawRecord) :
  NoDup (issue <$> records) →
  Forall (λ r, issue r ≠ "") records →
  length (dedupe_and_sort records) = length records
  ∧ ∀ r, r ∈ dedupe_and_sort records ↔ r ∈ records.
Proof.
  intros Hnd Hne. split.
  - by rewrite (dedupe_perm_distinct records Hnd Hne).
  - intros r. by apply dedupe_elem_distinct.
Qed.

Lemma dedupe_distinct_keeps_all_witness :
  length (dedupe_and_sort [Samples.record_2023001; Samples.record_2022150])
  = length [Samples.record_2023001; Samples.record_2022150]
  ∧ ∀ r, r ∈ dedupe_and_sort [Samples.record_2023001; Samples.record_2022150]
         ↔ r ∈ [Samples.record_2023001; Samples.record_2022150].
Proof.
  apply (dedupe_distinct_keeps_all
           [Samples.record_2023001; Samples.record_2022150]).
  - apply (bool_decide_unpack _). by vm_compute.
  - repeat constructor; discriminate.
Defined.

(** X3: a list that is already in strictly increasing order of non-empty
    issues is returned as it is. *)
Theorem dedupe_sorted_fixpoint (records : list DrawRecord) :
  StronglySorted (strict String.le) (issue <$> records) →
  Forall (λ r, issue r ≠ "") records →
  dedupe_and_sort records = records.
Proof.
  intros Hs Hne.
  assert (NoDup (issue <$> records)) as Hnd.
  { clear Hne. induction Hs as [|k ks Hs IH Hk]; constructor; [|done].
    intros Hin. rewrite Forall_forall in Hk. destruct (Hk k Hin) as [_ Hirr].
    by apply Hirr. }
  pose proof (dedupe_perm_distinct records Hnd Hne) as Hperm.
  assert (issue <$> dedupe_and_sort records = issue <$> records) as Hi.
  { apply (StronglySorted_unique_strong (strict String.le)).
    - intros x1 x2 _ _ [H12 Hn] [H21 _]. by destruct Hn.
    - rewrite dedupe_issues. apply StronglySorted_strict.
      + apply _.
      + apply sorted_keys_sorted.
      + apply sorted_keys_NoDup.
    - done.
    - by rewrite Hperm. }
  revert Hi Hperm Hnd. generalize (dedupe_and_sort records).
  induction records as [|r records IH]; intros out Hi Hperm Hnd.
  - by destruct out.
  - destruct out as [|x out]; [done|]. rewrite !fmap_cons in Hi.
    injection Hi as Hx Hi.
    assert (x = r) as ->.
    { assert (x ∈ r :: records) as Hin by (rewrite <- Hperm; left).
      apply elem_of_cons in Hin as [->|Hin]; [done|].
      rewrite fmap_cons in Hnd. apply NoDup_cons in Hnd as [Hr _].
      exfalso. apply Hr. rewrite <- Hx. by apply list_elem_of_fmap_2. }
    f_equal. apply Forall_cons in Hne as [_ Hne].
    apply StronglySorted_inv in Hs as [Hs _].
    rewrite fmap_cons in Hnd. apply NoDup_cons in Hnd as [_ Hnd].
    apply IH; try done. by apply Permutation_cons_inv in Hperm.
Qed.

Lemma dedupe_sorted_fixpoint_witness :
  dedupe_and_sort [Samples.record_2022150; Samples.record_2023001]
  = [Samples.record_2022150; Samples.record_2023001].
Proof.
  apply (dedupe_sorted_fixpoint
           [Samples.record_2022150; Samples.record_2023001]).
  - repeat constructor; by vm_compute.
  - repeat constructor; discriminate.
Defined.

Lemma last_with_issue_app (k : string) (a b : list DrawRecord) :
  last_with_issue k (a ++ b)
  = match last_with_issue k b with
    | Some r => Some r
    | None => last_with_issue k a
    end.
Proof.
  unfold last_with_issue. rewrite filter_app.
  destruct (filter _ b) as [|x l] using rev_ind.
  - by rewrite app_nil_r.
  - by rewrite app_assoc, !last_snoc.
Qed.

Lemma last_with_issue_None (k : string) (l : list DrawRecord) :
  last_with_issue k l = None ↔ k ∉ issue <$> l.
Proof.
  unfold last_with_issue. rewrite last_None. split.
  - intros Hnil (r & -> & Hr)%list_elem_of_fmap.
    assert (r ∈ filter (λ x, issue x = issue r) l) as Hin
      by by apply list_elem_of_filter.
    rewrite Hnil in Hin. by apply not_elem_of_nil in Hin.
  - intros Hk. induction l as [|x l IH]; [done|].
    rewrite fmap_cons in Hk. apply not_elem_of_cons in Hk as [Hx Hk].
    rewrite filter_cons_False by done. by apply IH.
Qed.

Lemma dedupe_elem_last (records : list DrawRecord) (r : DrawRecord) :
  r ∈ dedupe_and_sort records ↔
  issue r ≠ "" ∧ last_with_issue (issue r) records = Some r.
Proof.
  rewrite dedupe_elem, build_lookup. split.
  - intros [Hne H]. by rewrite decide_False in H.
  - intros [Hne H]. by rewrite decide_False.
Qed.

(** X4: the later batch has priority: a record comes out of the merge of two
    batches exactly when it comes out of the merge of the later batch, or it
    comes out of the merge of the earlier batch and no record of the later
    batch has its issue. In [main] the later batch is the later source. *)
Theorem dedupe_later_batch_wins (l1 l2 : list DrawRecord) (r : DrawRecord) :
  r ∈ dedupe_and_sort (l1 ++ l2) ↔
  r ∈ dedupe_and_sort l2
  ∨ (r ∈ dedupe_and_sort l1 ∧ issue r ∉ issue <$> l2).
Proof.
  rewrite !dedupe_elem_last, last_with_issue_app.
  rewrite <- last_with_issue_None.
  destruct (last_with_issue (issue r) l2) as [r2|]; split.
  - intros [? ?]. by left.
  - intros [[? ?]|[_ ?]]; done.
  - intros [? ?]. by right.
  - intros [[? ?]|[[? ?] _]]; done.
Qed.

(** X5: merging source by source: merging the merged output of two batches
    gives what merging the two batches at once gives. *)
Theorem dedupe_app (l1 l2 : list DrawRecord) :
  dedupe_and_sort (dedupe_and_sort l1 ++ dedupe_and_sort l2)
  = dedupe_and_sort (l1 ++ l2).
Proof.
  assert (∀ l k, k ≠ "" →
            last_with_issue k (dedupe_and_sort l) = build_by_issue l !! k)
    as Hlast.
  { intros l k Hk. unfold last_with_issue. rewrite dedupe_filter_issue.
    by destruct (build_by_issue l !! k). }
  assert (build_by_issue (dedupe_and_sort l1 ++ dedupe_and_sort l2)
          = build_by_issue (l1 ++ l2)) as Hb.
  { apply map_eq. intros k. rewrite !build_lookup. case_decide; [done|].
    rewrite !last_with_issue_app, !Hlast by done. rewrite !build_lookup.
    by rewrite !decide_False by done. }
  unfold dedupe_and_sort at 1. rewrite Hb. reflexivity.
Qed.

End MergerLaws.

Module FrameFacts.
Import Sys Frames RunFacts.

#[global] Instance same_output_preorder : PreOrder same_output.
Proof.
  split.
  - intros σ. by unfold same_output.
  - intros σ1 σ2 σ3 (?&?&?) (?&?&?). unfold same_output. split_and!; congruence.
Qed.

#[global] Instance same_net_preorder : PreOrder same_net.
Proof.
  split; [intros σ; by unfold same_net|].
  intros σ1 σ2 σ3. unfold same_net. congruence.
Qed.

#[global] Instance net_grows_preorder : PreOrder net_grows.
Proof.
  split; [intros σ; by unfold net_grows|].
  intros σ1 σ2 σ3. unfold net_grows. by etrans.
Qed.

#[global] Instance records_grow_preorder : PreOrder records_grow.
Proof.
  split; [intros σ; by unfold records_grow|].
  intros σ1 σ2 σ3. unfold records_grow. by etrans.
Qed.

Section keeps.
Context (R : relation state) `{!PreOrder R}.

Lemma keeps_ret {A} (a : A) : keeps R (ret a).
Proof. by intros σ. Qed.

Lemma keeps_mret {A} (a : A) : keeps R (mret a : M A).
Proof. by intros σ. Qed.

Lemma keeps_raise {A} (e : exn) : keeps R (raise e : M A).
Proof. by intros σ. Qed.

Lemma keeps_lift {A} (o : outcome A) : keeps R (lift o).
Proof. by intros σ. Qed.

Lemma keeps_get_records : keeps R get_records.
Proof. by intros σ. Qed.

Lemma keeps_bind {A B} (m : M A) (k : A → M B) :
  keeps R m → (∀ a, keeps R (k a)) → keeps R (m ≫= k).
Proof.
  intros Hm Hk σ. rewrite bind_run. specialize (Hm σ).
  destruct (m σ) as [[a|e] σ']; [|done]. etrans; [exact Hm|apply Hk].
Qed.

Lemma keeps_try_except {A} (m : M A) (h : exn → M A) :
  keeps R m → (∀ e, keeps R (h e)) → keeps R (try_except m h).
Proof.
  intros Hm Hh σ. unfold try_except. specialize (Hm σ).
  destruct (m σ) as [[a|e] σ']; [done|]. etrans; [exact Hm|apply Hh].
Qed.

Lemma keeps_for_each {A} (l : list A) (body : A → M unit) :
  (∀ x, keeps R (body x)) → keeps R (for_each l body).
Proof.
  intros Hbody. induction l as [|x l IH]; [apply keeps_ret|].
  cbn [for_each]. apply keeps_bind; [apply Hbody|by intros _].
Qed.

Lemma keeps_extend_from (all_records : list DrawRecord)
    (fetch : M (list DrawRecord)) :
  keeps R fetch → keeps R (Orchestrator.extend_from all_records fetch).
Proof.
  intros Hf. unfold Orchestrator.extend_from. apply keeps_try_except.
  - apply keeps_bind; [done|]. intros ?. apply keeps_ret.
  - intros _. apply keeps_ret.
Qed.

End keeps.


Create HintDb keeps.

(** Take a computation apart along its binds, handlers and loops. *)
Ltac keeps_auto :=
  repeat first
    [ solve [eauto with keeps]
    | apply keeps_ret | apply keeps_mret | apply keeps_raise
    | apply keeps_lift | apply keeps_get_records
    | apply keeps_bind; [apply _| |intros ?]
    | apply keeps_try_except; [apply _| |intros ?]
    | apply keeps_for_each; [apply _|intros ?]
    | apply keeps_extend_from; [apply _|]
    | apply _
    | progress eauto with keeps
    | case_match ].

(** The primitives: read the relation off the state they return. *)
Ltac keeps_primitive :=
  intros σ; unfold net_grows, records_grow, same_net, same_output; cbn;
  first [done | by apply prefix_app_r].


Lemma send_same_output w rq : keeps same_output (send w rq).
Proof. keeps_primitive. Qed.
Lemma set_records_same_output l : keeps same_output (set_records l).
Proof. keeps_primitive. Qed.
Lemma append_record_same_output r : keeps same_output (append_record r).
Proof. keeps_primitive. Qed.
#[global] Hint Resolve send_same_output set_records_same_output
  append_record_same_output : keeps.

Lemma set_records_same_net l : keeps same_net (set_records l).
Proof. keeps_primitive. Qed.
Lemma append_record_same_net r : keeps same_net (append_record r).
Proof. keeps_primitive. Qed.
Lemma print_same_net line : keeps same_net (print line).
Proof. keeps_primitive. Qed.
Lemma eprint_same_net line : keeps same_net (eprint line).
Proof. keeps_primitive. Qed.
Lemma open_file_same_net w path : keeps same_net (open_file w path).
Proof. intros σ. unfold same_net, open_file. by destruct (open_w w path). Qed.
Lemma writerow_same_net w path row : keeps same_net (writerow w path row).
Proof.
  intros σ. unfold same_net, writerow. by destruct (csv_writerow w path row).
Qed.
#[global] Hint Resolve set_records_same_net append_record_same_net
  print_same_net eprint_same_net open_file_same_net writerow_same_net : keeps.

Lemma send_net_grows w rq : keeps net_grows (send w rq).
Proof. keeps_primitive. Qed.
Lemma set_records_net_grows l : keeps net_grows (set_records l).
Proof. keeps_primitive. Qed.
Lemma append_record_net_grows r : keeps net_grows (append_record r).
Proof. keeps_primitive. Qed.
#[global] Hint Resolve send_net_grows set_records_net_grows
  append_record_net_grows : keeps.

Lemma send_records_grow w rq : keeps records_grow (send w rq).
Proof. keeps_primitive. Qed.
Lemma append_record_records_grow r : keeps records_grow (append_record r).
Proof. keeps_primitive. Qed.
#[global] Hint Resolve send_records_grow append_record_records_grow : keeps.

Lemma get_text_attempts_keeps R `{!PreOrder R} w n rq :
  keeps R (send w rq) → keeps R (get_text_attempts w n rq).
Proof.
  intros Hsend. induction n as [|n IH]; cbn [get_text_attempts]; keeps_auto.
Qed.

Lemma get_json_keeps R `{!PreOrder R} w url params :
  (∀ rq, keeps R (send w rq)) → keeps R (get_json w url params).
Proof.
  intros Hsend. unfold get_json, get_text. keeps_auto.
  all: by apply get_text_attempts_keeps.
Qed.

Lemma append_items_keeps R `{!PreOrder R} w items :
  (∀ r, keeps R (append_record r)) → keeps R (PagedJson.append_items w items).
Proof. intros Happ. unfold PagedJson.append_items. keeps_auto. Qed.

Lemma append_results_keeps R `{!PreOrder R} w data :
  (∀ r, keeps R (append_record r)) → keeps R (FlexJson.append_results w data).
Proof. intros Happ. unfold FlexJson.append_results. keeps_auto. Qed.

Lemma paged_loop_keeps R `{!PreOrder R} w n p :
  (∀ rq, keeps R (send w rq)) → (∀ r, keeps R (append_record r)) →
  keeps R (PagedJson.page_loop w n p).
Proof.
  intros Hsend Happ. revert p.
  induction n as [|n IH]; intros p; cbn [PagedJson.page_loop].
  - keeps_auto.
  - unfold _urllib_get. keeps_auto. all: by apply append_items_keeps.
Qed.

Lemma requests_loop_keeps R `{!PreOrder R} w url params n p :
  (∀ rq, keeps R (send w rq)) → (∀ r, keeps R (append_record r)) →
  keeps R (RequestsPath.page_loop w url params n p).
Proof.
  intros Hsend Happ. revert p.
  induction n as [|n IH]; intros p; cbn [RequestsPath.page_loop].
  - keeps_auto.
  - keeps_auto.
    all: first [by apply get_json_keeps|by apply append_items_keeps].
Qed.


Lemma fetch_sporttery_keeps R `{!PreOrder R} w max_pages :
  (∀ rq, keeps R (send w rq)) → (∀ r, keeps R (append_record r)) →
  keeps R (set_records []) →
  keeps R (PagedJson.fetch_from_sporttery_with_urllib w max_pages).
Proof.
  intros Hsend Happ Hset. unfold PagedJson.fetch_from_sporttery_with_urllib.
  keeps_auto. all: by apply paged_loop_keeps.
Qed.

Lemma fetch_cwl_keeps R `{!PreOrder R} w issue_count :
  (∀ rq, keeps R (send w rq)) → (∀ r, keeps R (append_record r)) →
  keeps R (set_records []) →
  keeps R (FlexJson.fetch_from_cwl_with_urllib w issue_count).
Proof.
  intros Hsend Happ Hset. unfold FlexJson.fetch_from_cwl_with_urllib.
  unfold _urllib_get. keeps_auto. all: by apply append_results_keeps.
Qed.

Lemma try_fetch_keeps R `{!PreOrder R} w max_pages :
  (∀ rq, keeps R (send w rq)) → (∀ r, keeps R (append_record r)) →
  keeps R (set_records []) →
  keeps R (RequestsPath.try_fetch_from_cwl w max_pages).
Proof.
  intros Hsend Happ Hset. unfold RequestsPath.try_fetch_from_cwl.
  keeps_auto.
  all: first [by apply requests_loop_keeps | by apply get_json_keeps
             | by apply append_results_keeps].
Qed.

Lemma fetch_500_keeps R `{!PreOrder R} w s e :
  (∀ rq, keeps R (send w rq)) →
  keeps R (TableFetch.fetch_from_500_with_requests w s e)
  ∧ keeps R (TableFetch.fetch_from_500_with_urllib w s e).
Proof.
  intros Hsend. split.
  - unfold TableFetch.fetch_from_500_with_requests, get_text. keeps_auto.
    all: by apply get_text_attempts_keeps.
  - unfold TableFetch.fetch_from_500_with_urllib, _urllib_get. keeps_auto.
Qed.

Lemma collect_keeps R `{!PreOrder R} w a :
  (∀ rq, keeps R (send w rq)) → (∀ r, keeps R (append_record r)) →
  keeps R (set_records []) →
  keeps R (Orchestrator.collect w a).
Proof.
  intros Hsend Happ Hset. unfold Orchestrator.collect, HttpClient.
  keeps_auto.
  all: first [ by apply try_fetch_keeps | by apply fetch_sporttery_keeps
             | by apply fetch_cwl_keeps | by apply fetch_500_keeps
             | by apply requests_loop_keeps | by apply paged_loop_keeps
             | by apply get_json_keeps | by apply append_results_keeps
             | by apply get_text_attempts_keeps ].
Qed.

Lemma collect_same_output w a σ all σ' :
  Orchestrator.collect w a σ = (Ok all, σ') →
  stdout σ' = stdout σ ∧ stderr σ' = stderr σ ∧ files σ' = files σ.
Proof.
  intros Hc.
  pose proof (collect_keeps same_output w a ltac:(eauto with keeps)
                ltac:(eauto with keeps) ltac:(eauto with keeps) σ) as Ho.
  by rewrite Hc in Ho.
Qed.

Lemma save_to_csv_same_net w recs path :
  keeps same_net (Sink.save_to_csv w recs path).
Proof. unfold Sink.save_to_csv, Sink.os_makedirs. keeps_auto. Qed.
#[global] Hint Resolve save_to_csv_same_net : keeps.

End FrameFacts.

Module MainFacts.
Import Sys Frames FrameFacts RunFacts Orchestrator Samples.

(** X6: whatever the sources answer, gathering them raises nothing, prints
    nothing and writes no file: an exception inside one source is swallowed
    and the later sources are still asked. *)
Theorem collect_swallows_and_is_silent (w : World) (a : args) (σ : state) :
  ∃ all σ', collect w a σ = (Ok all, σ')
            ∧ stdout σ' = stdout σ ∧ stderr σ' = stderr σ
            ∧ files σ' = files σ
            ∧ net_log σ `prefix_of` net_log σ'.
Proof.
  destruct (collect_ok w a σ) as (all & σ' & Hc). exists all, σ'.
  split; [done|].
  destruct (collect_same_output w a σ all σ' Hc) as (?&?&?).
  pose proof (collect_keeps net_grows w a ltac:(eauto with keeps)
                ltac:(eauto with keeps) ltac:(eauto with keeps) σ) as Hn.
  rewrite Hc in Hn. by split_and!.
Qed.

Lemma run_selftest_same_net w path : keeps same_net (run_selftest w path).
Proof.
  unfold run_selftest. keeps_auto.
Qed.

(** X7: the self test is offline: it sends no request, whatever the world. *)
Theorem selftest_sends_no_request (w : World) (a : args) :
  selftest a = true → net_log (run w a).2 = [].
Proof.
  intros Hself. unfold run, main. rewrite Hself.
  pose proof (run_selftest_same_net w (output a) initial) as H.
  by destruct (run_selftest w (output a) initial).
Qed.

Lemma selftest_sends_no_request_witness :
  net_log (run world_page2_down (args_of "/data/ssq.csv" SourceAll 1 true)).2
  = [].
Proof.
  apply (selftest_sends_no_request world_page2_down
           (args_of "/data/ssq.csv" SourceAll 1 true)).
  reflexivity.
Defined.

(** X8: when no record was gathered, [main] writes no file and prints nothing
    to the standard output; the error stream holds the diagnostic alone. *)
Theorem main_without_records_writes_nothing (w : World) (a : args)
    (all : list DrawRecord) (σ : state) :
  selftest a = false →
  collect w a initial = (Ok all, σ) →
  Merger.dedupe_and_sort all = [] →
  (run w a).1 = 2%Z
  ∧ files (run w a).2 = []
  ∧ stdout (run w a).2 = []
  ∧ stderr (run w a).2 = [no_records_message].
Proof.
  intros Hself Hc Hempty.
  destruct (collect_same_output w a initial all σ Hc) as (Hout & Herr & Hfiles).
  unfold run. rewrite (main_normal_run w a all σ Hself Hc).
  rewrite bool_decide_eq_true_2 by done. cbn.
  by rewrite Hout, Herr, Hfiles.
Qed.

Lemma main_without_records_writes_nothing_witness :
  (run world_with_requests (args_of "/data/ssq.csv" SourceCwl 200 false)).1
  = 2%Z
  ∧ files (run world_with_requests
             (args_of "/data/ssq.csv" SourceCwl 200 false)).2 = []
  ∧ stdout (run world_with_requests
              (args_of "/data/ssq.csv" SourceCwl 200 false)).2 = []
  ∧ stderr (run world_with_requests
              (args_of "/data/ssq.csv" SourceCwl 200 false)).2
    = [no_records_message].
Proof.
  apply (main_without_records_writes_nothing world_with_requests
           (args_of "/data/ssq.csv" SourceCwl 200 false) [] initial);
    reflexivity.
Defined.

(** X9: when records were gathered and the output file can be written, [main]
    writes one file, at the output path: the header row and one row per merged
    record, in the order of the merger; it prints one line to the standard
    output and nothing to the error stream. *)
Theorem main_writes_merged_records (w : World) (a : args)
    (all : list DrawRecord) (σ : state) :
  selftest a = false →
  collect w a initial = (Ok all, σ) →
  Merger.dedupe_and_sort all ≠ [] →
  Sink.writable w (output a) →
  files (run w a).2
  = [(output a, Sink.header :: (to_row <$> Merger.dedupe_and_sort all))]
  ∧ stdout (run w a).2
    = ["Saved " +:+ Py.str_nat (length (Merger.dedupe_and_sort all))
       +:+ " records to " +:+ output a]
  ∧ stderr (run w a).2 = [].
Proof.
  intros Hself Hc Hne Hw.
  destruct (collect_same_output w a initial all σ Hc) as (Hout & Herr & Hfiles).
  unfold run. rewrite (main_normal_run w a all σ Hself Hc).
  rewrite bool_decide_eq_false_2 by done.
  rewrite bind_run, (save_to_csv_writable _ _ _ _ Hw). cbn.
  by rewrite Hout, Herr, Hfiles.
Qed.

Lemma main_writes_merged_records_witness :
  files (run world_page2_down
           (args_of "/data/ssq.csv" SourceSporttery 1 false)).2
  = [("/data/ssq.csv",
      Sink.header :: (to_row <$> Merger.dedupe_and_sort [record_2023001]))]
  ∧ stdout (run world_page2_down
              (args_of "/data/ssq.csv" SourceSporttery 1 false)).2
    = ["Saved "
       +:+ Py.str_nat (length (Merger.dedupe_and_sort [record_2023001]))
       +:+ " records to " +:+ "/data/ssq.csv"]
  ∧ stderr (run world_page2_down
              (args_of "/data/ssq.csv" SourceSporttery 1 false)).2 = [].
Proof.
  apply (main_writes_merged_records world_page2_down
           (args_of "/data/ssq.csv" SourceSporttery 1 false)
           [record_2023001]
           (collect world_page2_down
              (args_of "/data/ssq.csv" SourceSporttery 1 false) initial).2).
  - reflexivity.
  - by vm_compute.
  - vm_compute. discriminate.
  - split; [vm_compute; discriminate|]. by repeat split.
Defined.

End MainFacts.

Module ExitFacts.
Import Sys Sink Orchestrator Samples RunFacts Frames FrameFacts.






(** X11: without [bs4] a self test whose output file can be written writes the
    header row and the two sample draws, the draw of the JSON sample first,
    prints the one line that counts them and returns 0; it sends no request. *)
Theorem selftest_without_bs4 (w : World) (path : string) (σ : state) :
  BeautifulSoup w = None →
  writable w path →
  run_selftest w path σ
  = (Ok 0%Z,
     mkState (net_log σ)
       (stdout σ ++ ["Selftest saved 2 records to " +:+ path])
       (stderr σ)
       ((path,
         [header;
          ["2023001"; "01"; "02"; "03"; "04"; "05"; "06"; "07"; "2023-01-03"];
          ["2023002"; "08"; "09"; "10"; "11"; "12"; "13"; "16"; "2023-01-05"]])
        :: files σ)
       (records σ)).
Proof.
  intros Hbs Hw. unfold run_selftest. rewrite bind_run.
  assert (selftest_sample_records (repr w) = Ok [record_2023001]) as ->
    by reflexivity.
  cbn [lift]. rewrite Hbs.
  assert (Merger.dedupe_and_sort
            ([record_2023001]
             ++ TableSource.parse_500_history_html None sample_500_html)
          = [record_2023001;
             mkDrawRecord "2023002" "08" "09" "10" "11" "12" "13" "16"
                          "2023-01-05"]) as -> by by vm_compute.
  rewrite bind_run, (save_to_csv_writable _ _ _ _ Hw). reflexivity.
Qed.

Lemma selftest_without_bs4_witness :
  run_selftest world_page2_down "/data/ssq.csv" initial
  = (Ok 0%Z,
     mkState (net_log initial)
       (stdout initial ++ ["Selftest saved 2 records to " +:+ "/data/ssq.csv"])
       (stderr initial)
       (("/data/ssq.csv",
         [header;
          ["2023001"; "01"; "02"; "03"; "04"; "05"; "06"; "07"; "2023-01-03"];
          ["2023002"; "08"; "09"; "10"; "11"; "12"; "13"; "16"; "2023-01-05"]])
        :: files initial)
       (records initial)).
Proof.
  apply (selftest_without_bs4 world_page2_down "/data/ssq.csv" initial).
  - reflexivity.
  - split; [vm_compute; discriminate|]. by repeat split.
Defined.

End ExitFacts.

Module SinkFacts.
Import Sys Sink Orchestrator Samples RunFacts SinkNotions.

Lemma drop_while_all {A} (f : A → bool) (l : list A) :
  forallb f l = true → drop_while f l = [].
Proof.
  induction l as [|x l IH]; [done|]. simpl.
  intros [-> Hl]%andb_prop. by apply IH.
Qed.

Lemma dirname_bare (path : string) : bare path = true → dirname path = "".
Proof.
  intros Hbare. unfold dirname.
  rewrite drop_while_all; [done|].
  unfold bare in Hbare. rewrite forallb_forall in Hbare |- *.
  intros c Hc. apply Hbare. by apply in_rev.
Qed.

(** [save_to_csv] with a bare file name raises [FileNotFoundError] before
    it opens the file. *)
Lemma save_to_csv_bare (w : World) (recs : list DrawRecord) (path : string)
    (σ : state) :
  bare path = true →
  save_to_csv w recs path σ = (Raise FileNotFoundError, σ).
Proof.
  intros Hbare. unfold save_to_csv, os_makedirs.
  by rewrite (dirname_bare path Hbare).
Qed.

(** C8: with an output path that is a bare file name, as in
    [--output ssq.csv], [os.path.dirname] gives the empty string and
    [os.makedirs] refuses it; [save_to_csv] stands outside every [try], so
    the exception leaves [main]: a run whose merged records are not empty
    exits with 1, and so does a self test, where the claim has 0.  With no
    record merged the exit status is 2, as the claim has it. *)
Theorem bare_output_name_exits_with_one (w : World) (a : args) :
  bare (output a) = true →
  (selftest a = false →
   ∃ all σ, collect w a initial = (Ok all, σ)
     ∧ (Merger.dedupe_and_sort all ≠ [] → (run w a).1 = 1%Z)
     ∧ (Merger.dedupe_and_sort all = [] → (run w a).1 = 2%Z))
  ∧ (selftest a = true → (run w a).1 = 1%Z).
Proof.
  intros Hbare. unfold run. split; intros Hself.
  - destruct (collect_ok w a initial) as (all & σ & Hc). exists all, σ.
    split; [done|]. rewrite (main_normal_run w a all σ Hself Hc).
    split; intros Hall.
    + rewrite bool_decide_eq_false_2 by done.
      by rewrite bind_run, (save_to_csv_bare _ _ _ _ Hbare).
    + by rewrite bool_decide_eq_true_2 by done.
  - unfold main. rewrite Hself. unfold run_selftest. rewrite bind_run.
    assert (selftest_sample_records (repr w) = Ok [record_2023001]) as ->
      by reflexivity.
    cbn [lift]. by rewrite bind_run, (save_to_csv_bare _ _ _ _ Hbare).
Qed.

Lemma bare_output_name_exits_with_one_witness :
  (run world_page2_down (args_of "ssq.csv" SourceSporttery 1 false)).1 = 1%Z
  ∧ (run world_page2_down (args_of "ssq.csv" SourceAll 1 true)).1 = 1%Z.
Proof.
  split.
  - destruct (bare_output_name_exits_with_one world_page2_down
                (args_of "ssq.csv" SourceSporttery 1 false) eq_refl)
      as [Hnormal _].
    destruct (Hnormal eq_refl) as (all & σ & Hc & Hone & _).
    apply Hone. vm_compute in Hc. injection Hc as <- _.
    vm_compute. discriminate.
  - destruct (bare_output_name_exits_with_one world_page2_down
                (args_of "ssq.csv" SourceAll 1 true) eq_refl) as [_ Hself].
    exact (Hself eq_refl).
Defined.

End SinkFacts.

Module RequestsFacts.
Import Sys Samples PagedClaims RunFacts Frames FrameFacts Orchestrator.

Lemma get_text_attempts_spec (w : World) (n : nat) (rq : request) (σ : state) :
  ∃ k, 1 ≤ k ≤ S n
    ∧ (get_text_attempts w n rq σ).2
      = mkState (net_log σ ++ replicate k rq) (stdout σ) (stderr σ) (files σ)
                (records σ)
    ∧ (get_text_attempts w n rq σ).1
      = http_get w (net_log σ ++ replicate (k - 1) rq) rq
    ∧ (∀ j, j < k - 1 →
            ∃ e, http_get w (net_log σ ++ replicate j rq) rq = Raise e)
    ∧ (∀ e, (get_text_attempts w n rq σ).1 = Raise e → k = S n).
Proof.
  revert σ. induction n as [|n IH]; intros σ.
  - exists 1. cbn [get_text_attempts]. unfold try_except, send.
    cbn [replicate Nat.sub]. rewrite app_nil_r.
    destruct (http_get w (net_log σ) rq) as [text|e] eqn:E; cbn.
    + split_and!; [lia|lia|done|done|intros; lia|done].
    + split_and!; [lia|lia|done|done|intros; lia|done].
  - cbn [get_text_attempts]. unfold try_except, send.
    destruct (http_get w (net_log σ) rq) as [text|e] eqn:E.
    + exists 1. cbn. rewrite app_nil_r.
      split_and!; [lia|lia|done|done|intros; lia|done].
    + destruct (IH (logged σ rq)) as (k & Hk & Hst & Hres & Hprev & Hlast).
      exists (S k). fold (logged σ rq).
      cbn [logged net_log stdout stderr files records] in Hst, Hres, Hprev.
      split_and!; [lia|lia| | | |].
      * rewrite Hst. cbn [replicate]. by rewrite <- app_assoc.
      * rewrite Hres. replace (S k - 1) with (S (k - 1)) by lia.
        cbn [replicate]. by rewrite <- app_assoc.
      * intros j Hj. destruct j as [|j].
        -- exists e. cbn. by rewrite app_nil_r.
        -- destruct (Hprev j ltac:(lia)) as [e' He']. exists e'.
           cbn [replicate]. by rewrite <- app_assoc in He'.
      * intros e' He'. by rewrite (Hlast e' He').
Qed.

(** X13: [HttpClient.get_text] sends the same request one to three times: it
    stops at the first attempt that answers and returns that answer; it raises
    only when the third attempt has failed, and then with the exception of
    that attempt. Nothing else changes. *)
Theorem get_text_sends_one_to_three (w : World) (url : string)
    (params : list (string * string)) (σ : state) :
  let rq := mkRequest true url params in
  ∃ k, 1 ≤ k ≤ 3
    ∧ (get_text w url params σ).2
      = mkState (net_log σ ++ replicate k rq) (stdout σ) (stderr σ) (files σ)
                (records σ)
    ∧ (get_text w url params σ).1
      = http_get w (net_log σ ++ replicate (k - 1) rq) rq
    ∧ (∀ j, j < k - 1 →
            ∃ e, http_get w (net_log σ ++ replicate j rq) rq = Raise e)
    ∧ (∀ e, (get_text w url params σ).1 = Raise e → k = 3).
Proof. apply (get_text_attempts_spec w 2). Qed.

Lemma try_except_pass (m : M unit) (σ : state) :
  try_except m (λ _, ret tt) σ = (Ok tt, (m σ).2).
Proof. unfold try_except. by destruct (m σ) as [[[]|e] σ']. Qed.

(** [try_fetch_from_cwl], candidate by candidate: the page loop and the
    block under [# Non-paged] for the paged address, then that block for
    the notice address; every exception ends its candidate. *)
Lemma try_fetch_run (w : World) (max_pages : Z) (σ : state) :
  let σ0 := mkState (net_log σ) (stdout σ) (stderr σ) (files σ) [] in
  let paged :=
    RequestsPath.page_loop w PagedJson.base_url
      [("gameNo", "85"); ("provinceId", "0"); ("pageSize", "50");
       ("isVerify", "1"); ("pageNo", "1")] (Z.to_nat max_pages) 1;;
    data ← get_json w PagedJson.base_url
             [("gameNo", "85"); ("provinceId", "0"); ("pageSize", "50");
              ("isVerify", "1"); ("pageNo", "1")];
    FlexJson.append_results w data in
  let notice :=
    data ← get_json w FlexJson.url [("name", "ssq"); ("issueCount", "100")];
    FlexJson.append_results w data in
  RequestsPath.try_fetch_from_cwl w max_pages σ
  = (Ok (records (notice (paged σ0).2).2), (notice (paged σ0).2).2).
Proof.
  cbv zeta. unfold RequestsPath.try_fetch_from_cwl.
  rewrite bind_run. cbn [set_records].
  rewrite bind_run. unfold RequestsPath.candidate_urls. cbn [for_each].
  rewrite bind_run, try_except_pass. rewrite bind_run, try_except_pass.
  reflexivity.
Qed.

(** X14: [try_fetch_from_cwl] never raises: an exception of either endpoint is
    swallowed, and what the paged endpoint had appended to [records] when it
    ended, by its last page or by an exception, is part of the result. *)
Theorem try_fetch_never_raises (w : World) (max_pages : Z) (σ : state) :
  let σ0 := mkState (net_log σ) (stdout σ) (stderr σ) (files σ) [] in
  let σ1 := (RequestsPath.page_loop w PagedJson.base_url
               [("gameNo", "85"); ("provinceId", "0"); ("pageSize", "50");
                ("isVerify", "1"); ("pageNo", "1")]
               (Z.to_nat max_pages) 1 σ0).2 in
  ∃ l σ', RequestsPath.try_fetch_from_cwl w max_pages σ = (Ok l, σ')
          ∧ records σ1 `prefix_of` l.
Proof.
  intros σ0 σ1. rewrite try_fetch_run. fold σ0. eexists _, _.
  split; [reflexivity|].
  assert (∀ url params,
            keeps records_grow
              (data ← get_json w url params; FlexJson.append_results w data))
    as Hflex.
  { intros url params. keeps_auto.
    all: first [ by apply get_json_keeps; eauto with keeps
               | by apply append_results_keeps; eauto with keeps ]. }
  etrans; [|apply Hflex]. rewrite bind_run. subst σ1.
  destruct (RequestsPath.page_loop _ _ _ _ _ σ0) as [[[]|e] σ1]; [|done].
  apply Hflex.
Qed.

Lemma get_json_logs_request (w : World) (url : string)
    (params : list (string * string)) (σ : state) :
  mkRequest true url params ∈ net_log (get_json w url params σ).2.
Proof.
  unfold get_json. rewrite bind_run.
  destruct (get_text_attempts_spec w 2 (mkRequest true url params) σ)
    as (k & Hk & Hst & _).
  change (get_text_attempts w 2 (mkRequest true url params) σ)
    with (get_text w url params σ) in Hst.
  destruct (get_text w url params σ) as [[text|e] σ']; cbn [snd] in Hst;
    subst σ'.
  - assert (mkRequest true url params
            ∈ net_log σ ++ replicate k (mkRequest true url params)) as Hin.
    { apply elem_of_app. right. destruct k; [lia|]. left. }
    by destruct (json_loads w text).
  - cbn. apply elem_of_app. right. destruct k; [lia|]. left.
Qed.

Lemma flexible_block_logs_request (w : World) (url : string)
    (params : list (string * string)) (σ : state) :
  mkRequest true url params
  ∈ net_log ((data ← get_json w url params;
              FlexJson.append_results w data) σ).2.
Proof.
  rewrite bind_run.
  pose proof (get_json_logs_request w url params σ) as Hlog.
  destruct (get_json w url params σ) as [[data|e] σ2]; [|done].
  pose proof (append_results_keeps net_grows w data
                ltac:(eauto with keeps) σ2) as Hg.
  cbn [snd] in Hlog. eapply elem_of_prefix; [exact Hlog|exact Hg].
Qed.

Lemma try_fetch_logs_notice (w : World) (max_pages : Z) (σ : state) :
  mkRequest true FlexJson.url [("name", "ssq"); ("issueCount", "100")]
  ∈ net_log (RequestsPath.try_fetch_from_cwl w max_pages σ).2.
Proof. rewrite try_fetch_run. apply flexible_block_logs_request. Qed.

(** X15: with [requests] installed, a run for the source [sporttery] also asks
    the notice endpoint of the source [cwl], whatever the paged endpoint
    answered. *)
Theorem sporttery_with_requests_asks_notice (w : World) (a : args) :
  requests w = true →
  selftest a = false →
  source a = SourceSporttery →
  mkRequest true FlexJson.url [("name", "ssq"); ("issueCount", "100")]
  ∈ net_log (run w a).2.
Proof.
  intros Hreq Hself Hsrc.
  assert (∃ all σ, collect w a initial = (Ok all, σ)
                   ∧ mkRequest true FlexJson.url
                               [("name", "ssq"); ("issueCount", "100")]
                     ∈ net_log σ) as (all & σ & Hc & Hin).
  { destruct (collect_ok w a initial) as (all & σ & Hc). exists all, σ.
    split; [done|]. revert Hc. unfold collect. rewrite Hreq, Hsrc.
    eval_closed_tests. cbn [andb negb]. unfold HttpClient. rewrite Hreq.
    rewrite !bind_run, extend_from_run, bind_run. cbn [ret].
    pose proof (try_fetch_logs_notice w (max_pages a) initial) as Hlog.
    destruct (RequestsPath.try_fetch_from_cwl w (max_pages a) initial)
      as [[l|e] σ']; cbn [snd] in Hlog; cbn; by intros [= <- <-]. }
  unfold run. rewrite (main_normal_run w a all σ Hself Hc).
  case_bool_decide; [done|].
  set (rest := Sink.save_to_csv _ _ _ ≫= _).
  assert (keeps same_net rest) as Hrest by (subst rest; keeps_auto).
  specialize (Hrest σ). unfold same_net in Hrest.
  destruct (rest σ) as [o σ']. cbn [snd] in Hrest |- *. by rewrite Hrest.
Qed.

Lemma sporttery_with_requests_asks_notice_witness :
  mkRequest true FlexJson.url [("name", "ssq"); ("issueCount", "100")]
  ∈ net_log (run world_with_requests
               (args_of "/data/ssq.csv" SourceSporttery 1 false)).2.
Proof.
  apply (sporttery_with_requests_asks_notice world_with_requests
           (args_of "/data/ssq.csv" SourceSporttery 1 false)); reflexivity.
Defined.

End RequestsFacts.

Module PagedLaws.
Import Sys PagedJson Samples PagedClaims RunFacts PagedFacts Frames FrameFacts.

Lemma append_items_same_net w items σ :
  net_log (append_items w items σ).2 = net_log σ.
Proof.
  apply (append_items_keeps same_net w items); eauto with keeps.
Qed.

Lemma page_loop_requests (w : World) (n p : nat) (σ : state) :
  ∃ k, k ≤ n
       ∧ net_log (page_loop w n p σ).2
         = net_log σ ++ (page_request <$> seq p k).
Proof.
  revert p σ. induction n as [|n IH]; intros p σ.
  - exists 0. split; [done|]. cbn. by rewrite app_nil_r.
  - rewrite page_loop_S.
    assert (∃ k, k ≤ S n ∧
              net_log (logged σ (page_request p))
              = net_log σ ++ (page_request <$> seq p k)) as Hone.
    { exists 1. split; [lia|]. reflexivity. }
    destruct (http_get w (net_log σ) (page_request p)) as [text|e]; [|done].
    destruct (json_loads w text) as [data|]; [|done].
    rewrite bind_run. unfold lift at 1.
    destruct (get data "value") as [value|e]; [|done].
    rewrite bind_run. unfold lift at 1.
    destruct (get (por value (JDict [])) "list") as [list|e]; [|done].
    cbv zeta. destruct (negb (truthy (por list (JList [])))); [done|].
    rewrite bind_run.
    pose proof (append_items_same_net w (por list (JList []))
                  (logged σ (page_request p))) as Hitems.
    destruct (append_items w _ _) as [[[]|e] σ2]; cbn [snd] in Hitems.
    + destruct (IH (S p) σ2) as (k & Hk & Hlog). exists (S k).
      split; [lia|]. rewrite Hlog, Hitems.
      cbn [logged net_log seq fmap list_fmap].
      by rewrite <- app_assoc.
    + cbn [snd]. exists 1. split; [lia|]. by rewrite Hitems.
Qed.

(** X16: the paged fetch asks for the pages 1, 2, ... in this order, one
    request each, and for no more than [max_pages] of them; with [max_pages]
    at or below zero it asks for none. *)
Theorem sporttery_requests_are_first_pages (w : World) (max_pages : Z)
    (σ : state) :
  ∃ k, k ≤ Z.to_nat max_pages
       ∧ net_log (fetch_from_sporttery_with_urllib w max_pages σ).2
         = net_log σ ++ (page_request <$> seq 1 k).
Proof.
  rewrite fetch_run.
  destruct (page_loop_requests w (Z.to_nat max_pages) 1
              (mkState (net_log σ) (stdout σ) (stderr σ) (files σ) []))
    as (k & Hk & Hlog).
  exists k. split; [done|].
  by destruct (page_loop _ _ _ _) as [[[]|e] σ'].
Qed.

Lemma tokens_nonempty code : Forall (λ n, n ≠ "") (tokens code).
Proof.
  apply Forall_forall. intros n Hn. unfold tokens in Hn.
  by apply list_elem_of_filter in Hn as [? _].
Qed.

(** X17: every record the item loop builds has a non-empty issue, six
    non-empty primary numbers and a non-empty secondary number. *)
Theorem item_record_fields_nonempty (repr : json → string) (it : json)
    (r : DrawRecord) :
  item_record repr it = Ok (Some r) →
  issue r ≠ ""
  ∧ Forall (λ n, n ≠ "")
           [red1 r; red2 r; red3 r; red4 r; red5 r; red6 r; blue r].
Proof.
  unfold item_record. destruct it as [| | | |?|items]; try done.
  cbn -[tokens Py.strip str por Nat.leb].
  destruct (strip _) as [code|e]; [|done].
  cbn -[tokens Py.strip str por Nat.leb].
  case_bool_decide as Hissue; [done|].
  case_bool_decide as Hcode; [done|]. cbn -[tokens Py.strip str por Nat.leb].
  pose proof (tokens_nonempty code) as Hne.
  destruct (7 <=? length (tokens code)) eqn:Hlen; [|by intros [=]].
  apply Nat.leb_le in Hlen.
  destruct (tokens_length_7 _ Hlen) as (n0&n1&n2&n3&n4&n5&n6&rest&E).
  rewrite E in Hne |- *. intros [= <-]. split; [done|].
  cbn -[str por]. repeat (apply Forall_cons in Hne as [? Hne]).
  by repeat constructor.
Qed.

Lemma item_record_fields_nonempty_witness :
  issue record_2023001 ≠ ""
  ∧ Forall (λ n, n ≠ "")
           [red1 record_2023001; red2 record_2023001; red3 record_2023001;
            red4 record_2023001; red5 record_2023001; red6 record_2023001;
            blue record_2023001].
Proof.
  apply (item_record_fields_nonempty (λ _, "") item_2023001 record_2023001).
  reflexivity.
Defined.

(** X18: an item that is a JSON object whose result is a string, or is missing
    or null, never raises; it is skipped exactly when its issue is empty or
    its stripped result has fewer than 7 tokens (an empty result has none). *)
Theorem item_record_skips_iff (repr : json → string)
    (items : list (string * json)) (code : string) :
  strip (por (field items "lotteryDrawResult") (JStr "")) = Ok code →
  item_record repr (JDict items) = Ok None
  ↔ issue_text repr items = "" ∨ length (tokens code) < 7.
Proof.
  intros Hcode. unfold item_record. cbn -[tokens Py.strip str por Nat.leb].
  fold (field items "lotteryDrawNum") (field items "issue")
       (field items "lotteryDrawResult").
  fold (issue_text repr items). rewrite Hcode.
  cbn -[tokens Py.strip str por Nat.leb].
  assert (code = "" → length (tokens code) < 7) as Hblank.
  { intros ->. vm_compute. lia. }
  case_bool_decide as Hissue; [by split; [left|]|].
  case_bool_decide as Hc; cbn -[tokens Py.strip str por Nat.leb].
  - split; [|done]. intros _. right. by apply Hblank.
  - destruct (7 <=? length (tokens code)) eqn:Hlen.
    + apply Nat.leb_le in Hlen. split; [done|]. intros [?|?]; [done|lia].
    + apply Nat.leb_gt in Hlen. split; [by right|done].
Qed.

Lemma item_record_skips_iff_witness :
  item_record (λ _, "") (JDict [("lotteryDrawNum", JStr "2023001")]) = Ok None
  ↔ issue_text (λ _, "") [("lotteryDrawNum", JStr "2023001")] = ""
    ∨ length (tokens "") < 7.
Proof.
  apply (item_record_skips_iff (λ _, "") [("lotteryDrawNum", JStr "2023001")]
           "").
  reflexivity.
Defined.

(** X19: the item loop raises exactly when the item is no JSON object, or its
    result is a non-empty value that is no string; the exception is an
    [AttributeError]. *)
Theorem item_record_raises_iff (repr : json → string) (it : json) (e : exn) :
  item_record repr it = Raise e
  ↔ e = AttributeError
    ∧ match it with
      | JDict items =>
          match por (field items "lotteryDrawResult") (JStr "") with
          | JStr _ => False
          | _ => True
          end
      | _ => True
      end.
Proof.
  unfold item_record. destruct it as [| | | |?|items];
    try (cbn; split; [by intros [= <-]|by intros [-> _]]).
  cbn -[tokens Py.strip str por Nat.leb].
  fold (field items "lotteryDrawResult").
  destruct (por (field items "lotteryDrawResult") (JStr "")) eqn:Hres;
    cbn -[tokens Py.strip str por];
    try (split; [by intros [= <-]|by intros [-> _]]).
  split; [|by intros [_ []]].
  repeat case_match; done.
Qed.

End PagedLaws.

Module FlexFacts.
Import Sys FlexJson FlexNotions Samples PagedClaims RunFacts Frames FrameFacts.

(** X20: [fetch_from_cwl_with_urllib] asks the notice endpoint exactly once,
    whatever it answers and whether the call returns or raises: there is no
    retry and no second endpoint. *)
Theorem cwl_sends_one_request (w : World) (issue_count : Z) (σ : state) :
  net_log (fetch_from_cwl_with_urllib w issue_count σ).2
  = net_log σ ++ [notice_request issue_count].
Proof.
  unfold fetch_from_cwl_with_urllib. rewrite bind_run.
  unfold _urllib_get, send. fold (notice_request issue_count).
  destruct (http_get w (net_log σ) (notice_request issue_count)) as [text|e];
    [|done].
  destruct (json_loads w text) as [data|]; [|done].
  set (rest := set_records [] ≫= _).
  assert (keeps same_net rest) as Hrest.
  { subst rest. keeps_auto. }
  exact (Hrest _).
Qed.

(** X21: the item list is found under [result], under [list], under [value],
    and one level down under [value.list] or [result.list]: the five shapes of
    answer are handled alike. *)
Theorem item_list_is_found_in_five_places (w : World) (l : list json)
    (σ : state) :
  let at_result := append_results w (JDict [("result", JList l)]) σ in
  append_results w (JDict [("list", JList l)]) σ = at_result
  ∧ append_results w (JDict [("value", JList l)]) σ = at_result
  ∧ append_results w (JDict [("value", JDict [("list", JList l)])]) σ
    = at_result
  ∧ append_results w (JDict [("result", JDict [("list", JList l)])]) σ
    = at_result.
Proof.
  cbv zeta. unfold append_results.
  destruct l as [|x l]; split_and!; reflexivity.
Qed.

(** X22: the primary numbers may come as one delimited string or as a list of
    strings: an item whose [reds] is a string with at least one token and the
    item whose [reds] is the list of these tokens give the same record. *)
Theorem reds_string_or_list (repr : json → string)
    (rest : list (string * json)) (reds : string) :
  red_tokens reds ≠ [] →
  item_record repr (JDict (("reds", JStr reds) :: rest))
  = item_record repr
      (JDict (("reds", JList (JStr <$> red_tokens reds)) :: rest)).
Proof.
  intros Htok.
  assert (reds ≠ "") as Hreds by (intros ->; apply Htok; by vm_compute).
  unfold item_record. cbn -[Py.split str por truthy].
  assert (∀ x, por (por (JStr reds) x) (JStr "") = JStr reds) as ->.
  { intros x. unfold por. cbn. rewrite (bool_decide_eq_false_2 _ Hreds).
    cbn. by rewrite (bool_decide_eq_false_2 _ Hreds). }
  assert (∀ x, por (por (JList (JStr <$> red_tokens reds)) x) (JStr "")
               = JList (JStr <$> red_tokens reds)) as ->.
  { intros x. unfold por. cbn.
    assert (JStr <$> red_tokens reds ≠ []) as Hne
      by (destruct (red_tokens reds); done).
    rewrite (bool_decide_eq_false_2 _ Hne). cbn.
    by rewrite (bool_decide_eq_false_2 _ Hne). }
  cbn -[Py.split str por].
  assert (JStr <$> red_tokens reds ≠ []) as Hne
    by (destruct (red_tokens reds); done).
  rewrite (bool_decide_eq_false_2 _ Hne). reflexivity.
Qed.

Lemma reds_string_or_list_witness :
  item_record (λ _, "")
    (JDict [("reds", JStr "01,02,03|04 05+06"); ("code", JStr "2023001");
            ("blue", JStr "07")])
  = item_record (λ _, "")
      (JDict [("reds", JList (JStr <$> red_tokens "01,02,03|04 05+06"));
              ("code", JStr "2023001"); ("blue", JStr "07")]).
Proof.
  apply (reds_string_or_list (λ _, "")
           [("code", JStr "2023001"); ("blue", JStr "07")]
           "01,02,03|04 05+06").
  by vm_compute.
Defined.

End FlexFacts.

Module ParseFacts.
Import Py TableSource Samples TableClaims MarkupClaims TableFacts MarkupFacts.
Import ParseNotions.

Lemma two_digit_form_two_digits s :
  is_digits_1_2 s = true → two_digits (two_digit_form s) = true.
Proof.
  unfold is_digits_1_2, two_digits, two_digit_form, is_digits.
  destruct s as [|c1 [|c2 [|c3 s]]]; simpl; try done.
  all: rewrite ?andb_true_r, ?andb_false_r; try done.

Qed.

(** What a row that gives a record on the regex path looks like. *)
Lemma regex_row_record_Some (td_values : list string) (r : DrawRecord) :
  regex_row_record td_values = Some r →
  16 ≤ length td_values
  ∧ is_digits (td_values !!! 0) = true
  ∧ (∀ i, 1 ≤ i ≤ 7 → is_digits_1_2 (td_values !!! i) = true)
  ∧ r = {|
      issue := td_values !!! 0;
      red1 := two_digit_form (td_values !!! 1);
      red2 := two_digit_form (td_values !!! 2);
      red3 := two_digit_form (td_values !!! 3);
      red4 := two_digit_form (td_values !!! 4);
      red5 := two_digit_form (td_values !!! 5);
      red6 := two_digit_form (td_values !!! 6);
      blue := two_digit_form (td_values !!! 7);
      date := td_values !!! 15
    |}.
Proof.
  intros Hr.
  destruct (decide (length td_values < 16)) as [Hlen|Hlen].
  { rewrite regex_row_record_rejects in Hr by by left. done. }
  destruct (is_digits (td_values !!! 0)) eqn:Hissue; cycle 1.
  { rewrite regex_row_record_rejects in Hr by (right; by left). done. }
  assert (∀ i, 1 ≤ i ≤ 7 → is_digits_1_2 (td_values !!! i) = true) as Hnum.
  { intros i Hi. destruct (is_digits_1_2 (td_values !!! i)) eqn:E; [done|].
    rewrite regex_row_record_rejects in Hr; [done|].
    right; right. by exists i. }
  rewrite regex_row_record_accepts in Hr by (done || lia).
  injection Hr as <-. split_and!; [lia|done|done|done].
Qed.

(** X24: every record of the regex parse, whatever the text, has an all-digit
    issue and seven numbers of exactly two digits. *)
Theorem regex_records_are_two_digit (html_text : string) :
  Forall (λ r, is_digits (issue r) = true
               ∧ Forall (λ n, two_digits n = true) (numbers r))
         (parse_500_history_html_regex html_text).
Proof.
  apply Forall_forall. intros r. unfold parse_500_history_html_regex.
  destruct (search true table_re html_text) as [table_match|];
    [|by intros ?%not_elem_of_nil].
  cbv zeta. intros (tr_match & _ & Hr)%list_elem_of_omap.
  apply regex_row_record_Some in Hr as (_ & Hissue & Hnum & ->).
  split; [done|]. unfold numbers. cbn [red1 red2 red3 red4 red5 red6 blue].
  repeat constructor; apply two_digit_form_two_digits, Hnum; lia.
Qed.

(** X25: every record of the structural parse, whatever tree the parser
    builds, has a non-empty issue and seven non-empty numbers. *)
Theorem structural_records_are_nonempty (parser : string → Soup.node)
    (html_text : string) :
  Forall (λ r, issue r ≠ "" ∧ Forall (λ n, n ≠ "") (numbers r))
         (parse_500_history_html (Some parser) html_text).
Proof.
  apply Forall_forall. intros r. unfold parse_500_history_html.
  destruct (Soup.find _ _ _) as [table|]; [|by intros ?%not_elem_of_nil].
  intros (row & _ & Hr)%list_elem_of_omap. revert Hr.
  unfold soup_row_record. generalize (Soup.find_all "td" row). intros cells.
  destruct (_ || _); [done|]. cbv zeta.
  destruct (_ || _ || negb _) eqn:Hg; [done|]. intros [= <-].
  apply orb_false_iff in Hg as [[H0 H7]%orb_false_iff Hreds].
  apply negb_false_iff in Hreds. cbn [seq fmap list_fmap forallb] in Hreds.
  rewrite !andb_true_iff, !negb_true_iff in Hreds. destruct_and!.
  repeat match goal with
         | H : bool_decide _ = false |- _ => apply bool_decide_eq_false in H
         end.
  split; [done|]. unfold numbers. cbn. by repeat constructor.
Qed.

Lemma soup_row_record_cells (cells : list string) :
  forallb plain cells = true →
  soup_row_record (td <$> cells)
  = if length cells <? 16 then None else copied_record cells.
Proof.
  intros Hplain. destruct (length cells <? 16) eqn:Hlen.
  - unfold soup_row_record. rewrite length_fmap, Hlen.
    by rewrite orb_true_r.
  - apply Nat.ltb_ge in Hlen. by apply soup_row_record_plain.
Qed.

Lemma soup_parse_rows (parser : string → Soup.node)
    (rows : list (list string)) :
  parser (markup (table_of rows)) = document (table_of rows) →
  forallb (forallb plain) rows = true →
  parse_500_history_html (Some parser) (markup (table_of rows))
  = omap (λ cells, if length cells <? 16 then None else copied_record cells)
         rows.
Proof.
  intros Hparse Hplain. unfold parse_500_history_html.
  rewrite Hparse. cbv zeta. rewrite find_table, find_all_tr. clear Hparse.
  induction rows as [|cells rows IH]; [done|].
  simpl in Hplain. apply andb_prop in Hplain as [Hp Hplain].
  cbn [fmap list_fmap omap list_omap].
  rewrite find_all_td, (soup_row_record_cells cells Hp).
  by rewrite (IH Hplain).
Qed.

(** The row of the regex path is the row of the structural path, checked
    and padded. *)
Lemma regex_row_checks_and_pads (cells : list string) :
  regex_row_record cells
  = (if length cells <? 16 then None else copied_record cells)
    ≫= λ r, if digit_record r then Some (padded r) else None.
Proof.
  destruct (length cells <? 16) eqn:Hlen.
  { apply Nat.ltb_lt in Hlen. by rewrite regex_row_record_rejects by by left. }
  apply Nat.ltb_ge in Hlen.
  destruct (regex_row_record cells) as [r|] eqn:Hr.
  - apply regex_row_record_Some in Hr as (_ & Hissue & Hnum & ->).
    pose proof (Hnum 1 ltac:(lia)) as H1. pose proof (Hnum 2 ltac:(lia)) as H2.
    pose proof (Hnum 3 ltac:(lia)) as H3. pose proof (Hnum 4 ltac:(lia)) as H4.
    pose proof (Hnum 5 ltac:(lia)) as H5. pose proof (Hnum 6 ltac:(lia)) as H6.
    pose proof (Hnum 7 ltac:(lia)) as H7. clear Hnum.
    unfold copied_record.
    assert (∀ s, is_digits_1_2 s = true → s ≠ "") as Hne
      by (by intros s H ->).
    rewrite (bool_decide_eq_false_2 (_ !!! 0 = ""))
      by by intros E; rewrite E in Hissue.
    rewrite (bool_decide_eq_false_2 (_ !!! 7 = "")) by by apply Hne.
    do 16 (destruct cells as [|? cells]; [simpl in Hlen; lia|]).
    cbn -[bool_decide is_digits is_digits_1_2 two_digit_form] in *.
    rewrite !bool_decide_eq_false_2 by by apply Hne.
    cbn -[is_digits is_digits_1_2 two_digit_form].
    unfold digit_record, numbers.
    cbn -[is_digits is_digits_1_2 two_digit_form].
    by rewrite Hissue, H1, H2, H3, H4, H5, H6, H7.
  - destruct (copied_record cells) as [r|] eqn:Hc; [|done].
    cbn. destruct (digit_record r) eqn:Hd; [|done]. exfalso.
    unfold copied_record in Hc. destruct (_ || _ || negb _); [done|].
    injection Hc as <-. unfold digit_record, numbers in Hd.
    cbn [issue red1 red2 red3 red4 red5 red6 blue forallb] in Hd.
    rewrite !andb_true_iff in Hd. destruct_and!.
    rewrite regex_row_record_accepts in Hr; [done|lia|done|].
    intros i Hi.
    assert (i = 1 ∨ i = 2 ∨ i = 3 ∨ i = 4 ∨ i = 5 ∨ i = 6 ∨ i = 7) as Hcase
      by lia.
    destruct_or!; by subst i.
Qed.

(** X26: on the markup of a table with the identifier [tdata] whose cells are
    plain, the records of the regex parse are the records of the structural
    parse that pass the digit tests, in the same order, with their numbers in
    two-digit form. *)
Theorem regex_parse_checks_and_pads (parser : string → Soup.node)
    (rows : list (list string)) :
  parser (markup (table_of rows)) = document (table_of rows) →
  forallb (forallb plain) rows = true →
  parse_500_history_html None (markup (table_of rows))
  = padded <$> filter (λ r, digit_record r = true)
                      (parse_500_history_html (Some parser)
                                              (markup (table_of rows))).
Proof.
  intros Hparse Hplain. rewrite (soup_parse_rows parser rows Hparse Hplain).
  cbn [parse_500_history_html]. rewrite regex_parse_markup by done.
  clear. induction rows as [|cells rows IH]; [done|].
  cbn [omap list_omap]. rewrite regex_row_checks_and_pads.
  destruct (if length cells <? 16 then None else copied_record cells)
    as [r|]; [|done].
  cbn [mbind option_bind]. rewrite filter_cons.
  destruct (digit_record r) eqn:Hd.
  - rewrite decide_True by done. cbn [fmap list_fmap]. by rewrite IH.
  - rewrite decide_False by (by intros ?). done.
Qed.

Lemma regex_parse_checks_and_pads_witness :
  parse_500_history_html None
    (markup (table_of [one_digit_row; not_a_number_row]))
  = padded <$> filter (λ r, digit_record r = true)
      (parse_500_history_html
         (Some (λ _, document (table_of [one_digit_row; not_a_number_row])))
         (markup (table_of [one_digit_row; not_a_number_row]))).
Proof.
  apply (regex_parse_checks_and_pads
           (λ _, document (table_of [one_digit_row; not_a_number_row]))
           [one_digit_row; not_a_number_row]); reflexivity.
Defined.

Lemma parses_agree_on_two_digit_rows_witness :
  parse_500_history_html
    (Some (λ _, document (table_of [two_digit_sample_row])))
    (markup (table_of [two_digit_sample_row]))
  = parse_500_history_html None (markup (table_of [two_digit_sample_row])).
Proof.
  apply (parses_agree_on_two_digit_rows
           (λ _, document (table_of [two_digit_sample_row]))
           [two_digit_sample_row]); [reflexivity|reflexivity|].
  apply Forall_cons. split; [|constructor].
  split; [vm_compute; lia|]. split; [reflexivity|].
  intros i Hi.
  assert (i = 1 ∨ i = 2 ∨ i = 3 ∨ i = 4 ∨ i = 5 ∨ i = 6 ∨ i = 7) as Hcase
    by lia.
  destruct_or!; subst i; by vm_compute.
Defined.

End ParseFacts.

Module RegexFacts.
Import Py PyFacts MarkupClaims RegexNotions.

#[local] Arguments String.append : simpl nomatch.

(** [re.sub] one match at a time. *)
Lemma sub_unfold (r : regex) (repl s : string) :
  0 < min_len r →
  sub r repl s =
  match search false r s with
  | None => s
  | Some m => m_before m +:+ repl +:+ sub r repl (m_after m)
  end.
Proof.
  intros Hmin. unfold sub at 1. unfold finditer.
  destruct (String.length s) as [|n] eqn:Hlen.
  - cbn [finditer_fuel]. destruct (search false r s) as [m|] eqn:E; [|done].
    apply search_length in E. lia.
  - cbn [finditer_fuel]. destruct (search false r s) as [m|] eqn:E; [|done].
    pose proof (search_length _ _ _ _ E) as Hm.
    rewrite finditer_fuel_enough by lia. cbn [foldr]. unfold sub.
    destruct (finditer false r (m_after m)) as [|m' ms] eqn:Hms; [done|].
    rewrite last_cons_cons.
    assert (is_Some (last (m' :: ms))) as [x ->] by by apply last_is_Some.
    done.
Qed.

(** A greedy repetition takes the longest run of the class when the rest
    of the pattern matches after it. *)
Lemma repeat_greedy_stops {R} (cls : ascii → bool) (a rest : string)
    (lo : nat) (k : string → option R) x :
  forallb cls (list_ascii_of_string a) = true →
  stops cls rest = true →
  lo ≤ String.length a →
  k rest = Some x →
  repeat_match cls lo None true (a +:+ rest) k = Some x.
Proof.
  intros Ha Hrest Hlo Hk. revert lo Hlo.
  induction a as [|c a IH]; intros lo Hlo.
  - simpl in Hlo. assert (lo = 0) as -> by lia. cbn [String.append].
    destruct rest as [|c rest]; cbn [repeat_match]; [done|].
    cbn [stops] in Hrest. apply negb_true_iff in Hrest.
    by rewrite Hrest.
  - cbn [list_ascii_of_string forallb] in Ha. apply andb_prop in Ha as [Hc Ha].
    cbn [String.append repeat_match]. rewrite Hc.
    cbn [andb may_take taken]. rewrite IH; [done|done|]. simpl in Hlo. lia.
Qed.

(** What a greedy or lazy repetition hands to the rest of the pattern. *)
Lemma repeat_match_prefix {R} cls lo hi greedy s (k : string → option R) x :
  repeat_match cls lo hi greedy s k = Some x →
  ∃ pre s', s = pre +:+ s'
            ∧ forallb cls (list_ascii_of_string pre) = true
            ∧ lo ≤ String.length pre ∧ k s' = Some x.
Proof.
  revert lo hi x. induction s as [|c s IH]; intros lo hi x H.
  - exists "", "". simpl in H. destruct greedy, lo; simpl in H; try done.
    destruct (k ""); [|done]. by injection H as ->.
  - assert (∀ y, (if cls c && may_take hi
                  then repeat_match cls (pred lo) (taken hi) greedy s k
                  else None) = Some y →
                 ∃ pre s', String c s = pre +:+ s'
                   ∧ forallb cls (list_ascii_of_string pre) = true
                   ∧ lo ≤ String.length pre ∧ k s' = Some y) as Hmore.
    { intros y Hy. destruct (cls c) eqn:Hc; [|done].
      destruct (may_take hi); [|done]. cbn [andb] in Hy.
      destruct (IH _ _ _ Hy) as (pre & s' & -> & Hpre & Hlen & Hk).
      exists (String c pre), s'. cbn [list_ascii_of_string forallb].
      rewrite Hc, Hpre. split_and!; [done|done|simpl; lia|done]. }
    assert (∀ y, match lo with O => k (String c s) | S _ => None end = Some y →
                 ∃ pre s', String c s = pre +:+ s'
                   ∧ forallb cls (list_ascii_of_string pre) = true
                   ∧ lo ≤ String.length pre ∧ k s' = Some y) as Hstop.
    { intros y Hy. destruct lo; [|done]. by exists "", (String c s). }
    simpl in H. destruct greedy.
    + destruct (if cls c && may_take hi then _ else _) eqn:E.
      * injection H as ->. by apply Hmore.
      * by apply Hstop.
    + destruct (match lo with O => _ | S _ => _ end) eqn:E.
      * injection H as ->. by apply Hstop.
      * by apply Hmore.
Qed.

Lemma search_Some_inv ic r s m :
  search ic r s = Some m →
  ∃ rest, s = m_before m +:+ rest
          ∧ match_at ic r rest = Some (m_groups m, m_after m).
Proof.
  revert m. induction s as [|c s IH]; intros m H; cbn [search] in H.
  - destruct (match_at ic r "") as [[gs rest]|] eqn:E; [|done].
    injection H as <-. by exists "".
  - destruct (match_at ic r (String c s)) as [[gs rest]|] eqn:E.
    + injection H as <-. by exists (String c s).
    + destruct (search ic r s) as [m'|]; [|done]. injection H as <-.
      destruct (IH m' eq_refl) as (rest & -> & Hm). by exists rest.
Qed.

Lemma search_skip ic (lit : string) (r : regex) (pre tail : string) :
  no_occurrence ic lit pre tail →
  search ic (Seq (Lit lit) r) (pre +:+ tail)
  = (λ m, mkMatch (pre +:+ m_before m) (m_groups m) (m_after m))
    <$> search ic (Seq (Lit lit) r) tail.
Proof.
  induction pre as [|c pre IH]; intros Hno.
  - cbn [String.append]. by destruct (search _ _ tail) as [[]|].
  - cbn [String.append search].
    assert (match_at ic (Seq (Lit lit) r) (String c (pre +:+ tail)) = None)
      as ->.
    { unfold match_at. cbn [run].
      pose proof (Hno "" (String c pre) eq_refl ltac:(done)) as H0.
      cbn [String.append] in H0. by rewrite H0. }
    rewrite IH by (intros a b -> Hb; by apply (Hno (String c a) b)).
    by destruct (search _ _ tail) as [[]|].
Qed.

End RegexFacts.

Module SnippetFacts.
Import Py TableSource PyFacts MarkupFacts RegexNotions RegexFacts.
Import SnippetNotions.

#[local] Arguments String.append : simpl nomatch.

Lemma match_element (a s : string) :
  well_formed (Element a) = true →
  match_at false tag_re ("<" +:+ a +:+ ">" +:+ s) = Some ([], s).
Proof.
  intros [Hne Ha]%andb_prop.
  apply negb_true_iff, bool_decide_eq_false in Hne.
  unfold match_at, tag_re. cbn [run]. cbn [String.append skip_literal char_eq].
  rewrite Ascii.eqb_refl. unfold plus.
  apply repeat_greedy_stops; [done|done| |done].
  destruct a; [done|simpl; lia].
Qed.

Lemma search_element (a s : string) :
  well_formed (Element a) = true →
  search false tag_re ("<" +:+ a +:+ ">" +:+ s) = Some (mkMatch "" [] s).
Proof.
  intros Ha. cbn [String.append].
  pose proof (match_element a s Ha) as Hm. cbn [String.append] in Hm.
  cbn [search]. by rewrite Hm.
Qed.

Lemma search_text (t s : string) :
  well_formed (Text t) = true →
  search false tag_re (t +:+ s)
  = (λ m, mkMatch (t +:+ m_before m) (m_groups m) (m_after m))
    <$> search false tag_re s.
Proof.
  intros Ht. cbn [well_formed] in Ht. induction t as [|c t IH].
  - cbn [String.append]. by destruct (search false tag_re s) as [[]|].
  - cbn [list_ascii_of_string forallb] in Ht.
    apply andb_prop in Ht as [Hc Ht]. apply negb_true_iff in Hc.
    cbn [String.append search]. rewrite (IH Ht).
    assert (match_at false tag_re (String c (t +:+ s)) = None) as ->.
    { unfold match_at, tag_re. cbn [run skip_literal char_eq].
      by rewrite Ascii.eqb_sym, Hc. }
    by destruct (search false tag_re s) as [[]|].
Qed.

Lemma min_len_tag_re : 0 < min_len tag_re.
Proof. simpl. lia. Qed.

(** [re.sub(r"<[^>]+>", "", s)] removes the tags and nothing else. *)
Lemma sub_tag_pieces (ps : list piece) :
  forallb well_formed ps = true →
  sub tag_re "" (render_all ps) = text_of ps.
Proof.
  induction ps as [|p ps IH]; intros Hwf; [done|].
  cbn [forallb] in Hwf. apply andb_prop in Hwf as [Hp Hwf].
  specialize (IH Hwf). cbn [render_all text_of foldr].
  fold (render_all ps) (text_of ps).
  rewrite sub_unfold by apply min_len_tag_re. destruct p as [t|a].
  - cbn [render]. rewrite search_text by done.
    rewrite sub_unfold in IH by apply min_len_tag_re.
    destruct (search false tag_re (render_all ps)) as [m|]; cbn.
    + rewrite <- IH. by rewrite append_assoc.
    + by rewrite IH.
  - cbn [render]. rewrite !append_assoc. rewrite search_element by done.
    cbn [m_before m_after]. by rewrite IH.
Qed.

(** X27: on a snippet of well-formed pieces [_strip_tags] returns the text
    pieces joined, with every [&nbsp;] replaced by a space, without the white
    space at both ends: the tags are removed, whatever they hold, and the text
    between them is kept. *)
Theorem strip_tags_removes_tags (ps : list piece) :
  forallb well_formed ps = true →
  _strip_tags (render_all ps)
  = strip (replace "&nbsp;" " " (text_of ps)).
Proof.
  intros Hwf. unfold _strip_tags. by rewrite sub_tag_pieces.
Qed.

Lemma strip_tags_removes_tags_witness :
  _strip_tags (render_all [Text " "; Element "span class='n'"; Text "08";
                           Element "/span"; Text "&nbsp;"])
  = strip (replace "&nbsp;" " "
             (text_of [Text " "; Element "span class='n'"; Text "08";
                       Element "/span"; Text "&nbsp;"])).
Proof.
  apply (strip_tags_removes_tags
           [Text " "; Element "span class='n'"; Text "08"; Element "/span";
            Text "&nbsp;"]).
  reflexivity.
Defined.

End SnippetFacts.

Module TransportFacts.
Import Py Transport RegexNotions TransportNotions.
Import PyFacts MarkupClaims MarkupFacts RegexFacts.

#[local] Arguments String.append : simpl nomatch.

(** A match of [charset=([\w-]+)] captures a non-empty run of [[\w-]]. *)
Lemma charset_match_group (s : string) (gs : list string) (after : string) :
  match_at true charset_re s = Some (gs, after) →
  ∃ name, gs = [name] ∧ name ≠ ""
          ∧ forallb word_or_dash (list_ascii_of_string name) = true.
Proof.
  unfold match_at, charset_re. cbn [run].
  destruct (skip_literal true "charset=" s) as [s1|]; [|done].
  unfold plus. intros (name & s' & -> & Hname & Hlen & [= <- <-])
                        %repeat_match_prefix.
  exists name. rewrite consumed_append. split_and!; [done| |done].
  intros ->. simpl in Hlen. lia.
Qed.

Lemma lower_word_char (c : ascii) :
  word_or_dash c = true → lower_word_or_dash (lower c) = true.
Proof. destruct c as [[] [] [] [] [] [] [] []]; by vm_compute. Qed.

Lemma lower_str_word (name : string) :
  forallb word_or_dash (list_ascii_of_string name) = true →
  forallb lower_word_or_dash (list_ascii_of_string (lower_str name)) = true.
Proof.
  induction name as [|c name IH]; [done|].
  cbn [list_ascii_of_string forallb lower_str].
  intros [Hc Hname]%andb_prop. by rewrite (lower_word_char c Hc), IH.
Qed.

(** X28: [_detect_encoding_from_meta] returns the default, or a non-empty name
    made of lower-case letters, digits, [_] and [-]. *)
Theorem detected_encoding_is_default_or_lower_name (html_bytes : list Byte.byte)
    (default : string) :
  _detect_encoding_from_meta html_bytes default = default
  ∨ (_detect_encoding_from_meta html_bytes default ≠ ""
     ∧ forallb lower_word_or_dash
         (list_ascii_of_string
            (_detect_encoding_from_meta html_bytes default)) = true).
Proof.
  unfold _detect_encoding_from_meta. cbv zeta.
  destruct (search true charset_re _) as [m|] eqn:Hm; [|by left]. right.
  apply search_Some_inv in Hm as (rest & _ & Hm).
  apply charset_match_group in Hm as (name & Hgs & Hne & Hname).
  unfold group1. rewrite Hgs. cbn [head from_option id].
  split; [by destruct name|by apply lower_str_word].
Qed.

(** X29: when the text of the first 4096 bytes, the bytes from 128 on dropped,
    holds [charset=] (in any case) for the first time before the name [name],
    and the name ends there, the result is the name in lower case. *)
Theorem detected_encoding_is_first_declaration (html_bytes : list Byte.byte)
    (default pre key name rest : string) :
  decode_ascii_ignore (take 4096 html_bytes)
    = pre +:+ key +:+ name +:+ rest →
  lower_str key = "charset=" →
  no_occurrence true "charset=" pre (key +:+ name +:+ rest) →
  name ≠ "" →
  forallb word_or_dash (list_ascii_of_string name) = true →
  stops word_or_dash rest = true →
  _detect_encoding_from_meta html_bytes default = lower_str name.
Proof.
  intros Hhead Hkey Hno Hne Hname Hrest.
  unfold _detect_encoding_from_meta. cbv zeta. rewrite Hhead.
  unfold charset_re. rewrite search_skip by done.
  assert (skip_literal true "charset=" (key +:+ name +:+ rest)
          = Some (name +:+ rest)) as Hlit.
  { clear -Hkey. revert Hkey. generalize "charset=". generalize (name +:+ rest).
    induction key as [|c key IH]; intros s lit Hlit.
    - cbn in Hlit. by subst lit.
    - cbn [lower_str] in Hlit. subst lit. cbn [String.append skip_literal].
      unfold char_eq.
      assert (lower (lower c) = lower c) as ->
        by (destruct c as [[] [] [] [] [] [] [] []]; by vm_compute).
      rewrite Ascii.eqb_refl. by apply IH. }
  assert (match_at true (Seq (Lit "charset=") (Group (plus word_or_dash)))
                   (key +:+ name +:+ rest) = Some ([name], rest)) as Hm.
  { unfold match_at. cbn [run]. rewrite Hlit. unfold plus.
    apply repeat_greedy_stops; [done|done| |].
    - destruct name; [done|simpl; lia].
    - by rewrite consumed_append. }
  by rewrite (search_at_start _ _ _ _ _ Hm).
Qed.

Lemma detected_encoding_is_first_declaration_witness :
  _detect_encoding_from_meta
    (bytes_of "<meta content='text/html; Charset=GB2312'>") "utf-8"
  = lower_str "GB2312".
Proof.
  apply (detected_encoding_is_first_declaration
           (bytes_of "<meta content='text/html; Charset=GB2312'>") "utf-8"
           "<meta content='text/html; " "Charset=" "GB2312" "'>").
  - reflexivity.
  - reflexivity.
  - no_occurrence_literal.
  - discriminate.
  - reflexivity.
  - reflexivity.
Defined.

End TransportFacts.
